(** * sridharv/fail: panic-based failure reporting for tests

    A shallow embedding of [fail.go] (the package with the deferred-failure
    queue and the repeated trace reduction) and of the repository's second
    file of package [fail] (the one that has [IfNot] and a single reduction
    pass inside [Using]).

    Go strings are byte strings and are modelled by [string]; the functions
    of Go's [strings] and [fmt] packages the code calls are modelled in
    [Module strings] and [Module fmt].  Package state ([failing], [queue])
    lives in a [World] together with the observable calls the package makes
    to its surroundings ([debug.Stack] and the reporter).  A Go call either
    returns or panics, and keeps whatever it wrote to the state in both
    cases: [M A := World -> outcome A * World]. *)

From Stdlib Require Import String Ascii List ZArith Bool Lia DecimalString.
Import ListNotations.
Local Open Scope list_scope.
Local Open Scope string_scope.

(* ------------------------------------------------------------------ *)
(** ** Go's [strings] package, as far as the code uses it *)

Module strings.

(** The line separator ["\n"]. *)
Definition nl : string := String "010"%char EmptyString.

(** The horizontal tab ["\t"]. *)
Definition tab : string := String "009"%char EmptyString.

(** [strings.HasPrefix(s, prefix)]. *)
Fixpoint HasPrefix (s prefix : string) {struct prefix} : bool :=
  match prefix, s with
  | EmptyString, _ => true
  | String _ _, EmptyString => false
  | String c p', String d s' => Ascii.eqb c d && HasPrefix s' p'
  end.

(** The slice expression [s[0:n]]; the code only takes it at an index
    returned by [LastIndex], which is in range. *)
Definition slice_to (s : string) (n : Z) : string :=
  substring 0 (Z.to_nat n) s.

(** [strings.HasSuffix(s, suffix)]:
    [len(s) >= len(suffix) && s[len(s)-len(suffix):] == suffix]. *)
Definition HasSuffix (s suffix : string) : bool :=
  (String.length suffix <=? String.length s)%nat &&
  String.eqb (substring (String.length s - String.length suffix) (String.length suffix) s) suffix.

(** [strings.Contains(s, substr)]: some suffix of [s] starts with
    [substr]. *)
Fixpoint Contains (s substr : string) : bool :=
  HasPrefix s substr ||
  match s with
  | EmptyString => false
  | String _ s' => Contains s' substr
  end.

(** [strings.LastIndex(s, sep)]: the byte index of the last occurrence of
    [sep] in [s], or [-1]. *)
Fixpoint LastIndex (s sep : string) : Z :=
  match s with
  | EmptyString => if HasPrefix s sep then 0 else -1
  | String _ s' =>
      let r := LastIndex s' sep in
      if (0 <=? r)%Z then (1 + r)%Z
      else if HasPrefix s sep then 0%Z else (-1)%Z
  end.

(** One white-space rune at the front of [s], in UTF-8, removed.  The set
    is Go's [unicode.IsSpace]: tab, LF, VT, FF, CR, space, U+0085, U+00A0,
    U+1680, U+2000..U+200A, U+2028, U+2029, U+202F, U+205F and U+3000. *)
Definition strip_space_rune (s : string) : option string :=
  match s with
  | EmptyString => None
  | String c r1 =>
      let b := nat_of_ascii c in
      if ((9 <=? b) && (b <=? 13) || (b =? 32))%nat then Some r1
      else
        match r1 with
        | EmptyString => None
        | String c2 r2 =>
            let b2 := nat_of_ascii c2 in
            if ((b =? 194) && ((b2 =? 133) || (b2 =? 160)))%nat then Some r2
            else
              match r2 with
              | EmptyString => None
              | String c3 r3 =>
                  let b3 := nat_of_ascii c3 in
                  if ((b =? 225) && (b2 =? 154) && (b3 =? 128)
                      || (b =? 226) && (b2 =? 128)
                         && ((128 <=? b3) && (b3 <=? 138)
                             || (b3 =? 168) || (b3 =? 169) || (b3 =? 175))
                      || (b =? 226) && (b2 =? 129) && (b3 =? 159)
                      || (b =? 227) && (b2 =? 128) && (b3 =? 128))%nat
                  then Some r3
                  else None
              end
        end
  end.

(** Leading white space removed. *)
Fixpoint trim_left_fuel (fuel : nat) (s : string) : string :=
  match fuel with
  | O => s
  | S fuel' =>
      match strip_space_rune s with
      | Some s' => trim_left_fuel fuel' s'
      | None => s
      end
  end.

Definition TrimLeftSpace (s : string) : string :=
  trim_left_fuel (String.length s) s.

Fixpoint rev_string (s : string) : string :=
  match s with
  | EmptyString => EmptyString
  | String c s' => rev_string s' ++ String c EmptyString
  end.

(** One white-space rune at the end of a string, removed; the argument is
    the string reversed, so the bytes of the rune come last byte first. *)
Definition strip_space_rune_rev (s : string) : option string :=
  match s with
  | EmptyString => None
  | String c r1 =>
      let b := nat_of_ascii c in
      if ((9 <=? b) && (b <=? 13) || (b =? 32))%nat then Some r1
      else
        match r1 with
        | EmptyString => None
        | String c2 r2 =>
            let b2 := nat_of_ascii c2 in
            if ((b2 =? 194) && ((b =? 133) || (b =? 160)))%nat then Some r2
            else
              match r2 with
              | EmptyString => None
              | String c3 r3 =>
                  let b3 := nat_of_ascii c3 in
                  if ((b3 =? 225) && (b2 =? 154) && (b =? 128)
                      || (b3 =? 226) && (b2 =? 128)
                         && ((128 <=? b) && (b <=? 138)
                             || (b =? 168) || (b =? 169) || (b =? 175))
                      || (b3 =? 226) && (b2 =? 129) && (b =? 159)
                      || (b3 =? 227) && (b2 =? 128) && (b =? 128))%nat
                  then Some r3
                  else None
              end
        end
  end.

Fixpoint trim_right_fuel (fuel : nat) (r : string) : string :=
  match fuel with
  | O => r
  | S fuel' =>
      match strip_space_rune_rev r with
      | Some r' => trim_right_fuel fuel' r'
      | None => r
      end
  end.

Definition TrimRightSpace (s : string) : string :=
  rev_string (trim_right_fuel (String.length s) (rev_string s)).

(** [strings.TrimSpace(s)]: leading and trailing white space removed. *)
Definition TrimSpace (s : string) : string :=
  TrimRightSpace (TrimLeftSpace s).

(** [strings.Split(s, sep)] for a non-empty [sep] (the code splits at
    ["\n"]): [skip] counts the bytes of a separator still to be passed
    over, [cur] is the piece being read. *)
Fixpoint split_from (sep : string) (skip : nat) (cur s : string)
  : list string :=
  match s with
  | EmptyString => [cur]
  | String c s' =>
      match skip with
      | S k => split_from sep k cur s'
      | O =>
          if HasPrefix s sep
          then cur :: split_from sep (String.length sep - 1) EmptyString s'
          else split_from sep 0 (cur ++ String c EmptyString) s'
      end
  end.

Definition Split (s sep : string) : list string :=
  split_from sep 0 EmptyString s.

(** [strings.Join(elems, sep)]. *)
Fixpoint Join (elems : list string) (sep : string) : string :=
  match elems with
  | [] => EmptyString
  | [e] => e
  | e :: rest => e ++ sep ++ Join rest sep
  end.

End strings.

Import strings.

(* ------------------------------------------------------------------ *)
(** ** Values of type [interface{}] and their rendering by [fmt] *)

(** The dynamic values the package passes around: the nil interface, an
    error (known by its [Error()] text), a string, an integer, and the
    package's own [type failure []interface{}]. *)
#[warnings="-register-all"]
Inductive value : Type :=
| VNil
| VError (msg : string)
| VString (s : string)
| VInt (n : Z)
| VFailure (args : list value).

(** A value of Go's static type [error]: nil, or an error with its text. *)
Definition error : Type := option string.

Definition is_failure (v : value) : bool :=
  match v with VFailure _ => true | _ => false end.

Definition is_nil (v : value) : bool :=
  match v with VNil => true | _ => false end.

Module fmt.

(** The verb [%v]: an error prints its [Error()] text, a slice prints its
    elements between brackets, separated by one space. *)
Fixpoint format_v (v : value) : string :=
  match v with
  | VNil => "<nil>"
  | VError msg => msg
  | VString s => s
  | VInt n => NilZero.string_of_int (Z.to_int n)
  | VFailure args => "[" ++ Join (map format_v args) " " ++ "]"
  end.

(** [fmt.Sprintln(a...)]: the operands in [%v], a space between any two
    of them, and a newline at the end. *)
Definition Sprintln (a : list value) : string :=
  Join (map format_v a) " " ++ nl.

End fmt.

(* ------------------------------------------------------------------ *)
(** ** The world: package variables and the calls that leave the package *)

(** What the package does to its surroundings, in the order it does it. *)
Inductive event : Type :=
| StackCaptured
| Reported (args : list value).

(** [failing] and [queue] are the package variables of [fail.go]; [stack]
    is the text [debug.Stack()] returns at the recovery point; [events]
    logs the calls to [debug.Stack] and to the recording reporter. *)
Record World : Type := mkWorld {
  failing : bool;
  queue : list value;
  stack : string;
  events : list event
}.

Definition set_failing (b : bool) (w : World) : World :=
  mkWorld b (queue w) (stack w) (events w).

Definition set_queue (q : list value) (w : World) : World :=
  mkWorld (failing w) q (stack w) (events w).

Definition log_event (e : event) (w : World) : World :=
  mkWorld (failing w) (queue w) (stack w) (events w ++ [e])%list.

(** The state of a freshly loaded package: [var failing = false],
    [var queue = []interface{}{}]. *)
Definition initial (st : string) : World := mkWorld false [] st [].

(** A call returns a result or panics with a value. *)
Inductive outcome (A : Type) : Type :=
| Returned (a : A)
| Panicked (v : value).
Arguments Returned {A} a.
Arguments Panicked {A} v.

Definition M (A : Type) : Type := World -> outcome A * World.

Definition ret {A} (a : A) : M A := fun w => (Returned a, w).

Definition bind {A B} (c : M A) (k : A -> M B) : M B :=
  fun w =>
    match c w with
    | (Returned a, w') => k a w'
    | (Panicked v, w') => (Panicked v, w')
    end.

Notation "x <- c ;; k" := (bind c (fun x => k))
  (at level 61, c at next level, right associativity).
Notation "c ;; k" := (bind c (fun _ => k))
  (at level 61, right associativity).

(** The built-in [panic(v)]. *)
Definition panic {A} (v : value) : M A := fun w => (Panicked v, w).

Definition get_failing : M bool := fun w => (Returned (failing w), w).
Definition get_queue : M (list value) := fun w => (Returned (queue w), w).
Definition put_failing (b : bool) : M unit :=
  fun w => (Returned tt, set_failing b w).
Definition put_queue (q : list value) : M unit :=
  fun w => (Returned tt, set_queue q w).

(** [debug.Stack()]. *)
Definition debug_Stack : M string :=
  fun w => (Returned (stack w), log_event StackCaptured w).

(** A reporter that records its arguments, as [t.Fatal] would print them. *)
Definition record_report (args : list value) : M unit :=
  fun w => (Returned tt, log_event (Reported args) w).

(** *** [defer], [panic] and [recover] *)

(** A deferred call either never calls [recover] itself, or begins with
    [r := recover()] as [Using] and the guard inside [enqueue] do; the
    latter is given the recovered value. *)
Inductive deferred : Type :=
| Defer (call : M unit)
| DeferRecover (call : value -> M unit).

(** One deferred call run while the function is leaving with outcome [o].
    Without [recover] a panic goes on after the call, unless the call
    panics itself, and then the new panic replaces it.  With [recover] the
    call receives the panic value ([nil] when there is none), the panic is
    over, and the function leaves the way the call does. *)
Definition run_deferred (d : deferred) (o : outcome unit) : M unit :=
  fun w =>
    match d with
    | Defer call =>
        match call w with
        | (Returned _, w') => (o, w')
        | (Panicked v, w') => (Panicked v, w')
        end
    | DeferRecover call =>
        call (match o with Panicked v => v | Returned _ => VNil end) w
    end.

(** The pending deferred calls, most recent first. *)
Fixpoint unwind (pending : list deferred) (o : outcome unit) : M unit :=
  fun w =>
    match pending with
    | [] => (o, w)
    | d :: rest =>
        let (o', w') := run_deferred d o w in unwind rest o' w'
    end.

(** The statements of a function body: a call, or a [defer] statement. *)
Inductive stmt : Type :=
| Call (c : M unit)
| DeferCall (d : deferred).

Fixpoint exec (body : list stmt) (pending : list deferred) : M unit :=
  fun w =>
    match body with
    | [] => unwind pending (Returned tt) w
    | Call c :: rest =>
        match c w with
        | (Returned _, w') => exec rest pending w'
        | (Panicked v, w') => unwind pending (Panicked v) w'
        end
    | DeferCall d :: rest => exec rest (d :: pending) w
    end.

(** A function call: the body runs, then the deferred calls it registered. *)
Definition func (body : list stmt) : M unit := exec body [].

(* ------------------------------------------------------------------ *)
(** ** Package [fail] ([fail.go]) *)

Section Package.

(** [var pkgPath = reflect.TypeOf(namer{}).PkgPath()]: the import path
    of the package, fixed when the program is built. *)
Variable pkgPath : string.

(** [func clean(str string) string] *)
Definition clean (str : string) : string :=
  let bracket := LastIndex str "(" in
  let lineIndex := LastIndex str " +0x" in
  if HasSuffix str ")" && negb (bracket =? -1)%Z then slice_to str bracket
  else if negb (lineIndex =? -1)%Z then slice_to str lineIndex
  else str.

(** The variables of the loop in [squash]. *)
Record scan : Type := mkScan {
  squashed : list string;
  found : bool;
  include : bool;
  strippedPath : bool
}.

(** The line [part] marks the frame of the test runner. *)
Definition is_runner (part : string) : bool :=
  HasPrefix (TrimSpace part) "testing.tRunner".

(** One iteration of [for _, part := range trace]. *)
Definition squash_step (st : scan) (part : string) : scan :=
  let st1 :=
    if Contains part pkgPath
    then mkScan (squashed st) true (include st) true
    else if is_runner part
    then mkScan (squashed st) false false (strippedPath st)
    else if found st
    then mkScan (squashed st) (found st) true (strippedPath st)
    else st in
  if include st1
  then mkScan (squashed st1 ++ [clean part])%list
              (found st1) (include st1) (strippedPath st1)
  else st1.

Definition squash_init : scan := mkScan [""] false false false.

(** [func squash(trace []string) ([]string, bool)] *)
Definition squash (trace : list string) : list string * bool :=
  let st := fold_left squash_step trace squash_init in
  if negb (strippedPath st) then (trace, false)
  else (squashed st, true).

(** [for i := 0; i < 3 && more; i++ { squashed, more = squash(squashed) }]:
    [left] is [3 - i]; the result carries the final [i]. *)
Fixpoint squash_loop (left i : nat) (sq : list string) (more : bool)
  : nat * (list string * bool) :=
  match left with
  | O => (i, (sq, more))
  | S left' =>
      if more
      then let (sq', more') := squash sq in squash_loop left' (S i) sq' more'
      else (i, (sq, more))
  end.

(** The reduction [Using] applies to the captured trace. *)
Definition reduce (trace : list string) : list string :=
  let (sq, more) := squash trace in
  fst (snd (squash_loop 3 0 sq more)).

(** [func Message(args ...interface{}) interface{}] *)
Definition Message (args : list value) : M value :=
  put_failing true ;;
  ret (VFailure args).

(** The deferred closure of [enqueue]; [r.(failure)] panics with a
    run-time error when [r] is not a [failure]. *)
Definition enqueue_guard (r : value) : M unit :=
  match r with
  | VFailure args =>
      let sq := [""; "Failure on defer: " ++ fmt.Sprintln args] in
      q <- get_queue ;;
      put_queue (q ++ [VString (Join sq nl)])%list
  | _ => panic (VError "interface conversion: interface {} is not fail.failure")
  end.

(** [func enqueue(f interface{})] *)
Definition enqueue (f : value) : M unit :=
  func [DeferCall (DeferRecover enqueue_guard); Call (panic f)].

(** [func Now(args ...interface{})] *)
Definition Now (args : list value) : M unit :=
  is_failing <- get_failing ;;
  (if negb is_failing then f <- Message args ;; panic f else ret tt) ;;
  f <- Message args ;;
  enqueue f.

(** [func IfErr(err error, args ...interface{})] *)
Definition IfErr (err : error) (args : list value) : M unit :=
  match err with
  | Some e => Now (VError e :: args)
  | None => ret tt
  end.

(** [func IfDeferred(fn func() error, args ...interface{})] *)
Definition IfDeferred (fn : M error) (args : list value) : M unit :=
  err <- fn ;;
  match err with
  | Some e => Now (VError e :: args)
  | None => ret tt
  end.

(** [func If(condition bool, args ...interface{})] *)
Definition If (condition : bool) (args : list value) : M unit :=
  if condition then Now args else ret tt.

(** [func Using(failer func(...interface{}))], from [r := recover()] on. *)
Definition Using (failer : list value -> M unit) (r : value) : M unit :=
  match r with
  | VNil => ret tt
  | VFailure f =>
      st <- debug_Stack ;;
      let trace := Split st nl in
      let res := (f ++ [VString (Join (reduce trace) nl)])%list in
      q <- get_queue ;;
      let res := (res ++ q)%list in
      put_failing false ;;
      put_queue [] ;;
      failer res
  | _ => panic r
  end.

(** A test function: [defer fail.Using(failer)] first, then [body]. *)
Definition guarded (failer : list value -> M unit) (body : list stmt)
  : M unit :=
  func (DeferCall (DeferRecover (Using failer)) :: body).

End Package.

(* ------------------------------------------------------------------ *)
(** ** The second file of package [fail] (the one with [IfNot]) *)

Module Part000.
Section Package.

Variable pkgPath : string.

(** The variables of the loop inside [Using]. *)
Record scan : Type := mkScan {
  squashed : list string;
  found : bool;
  include : bool
}.

(** One iteration of [for _, part := range parts]. *)
Definition scan_step (st : scan) (part : string) : scan :=
  let st1 :=
    if Contains part pkgPath
    then mkScan (squashed st) true (include st)
    else if HasPrefix (TrimSpace part) "testing.tRunner"
    then mkScan (squashed st) false false
    else if found st
    then mkScan (squashed st) (found st) true
    else st in
  if include st1
  then mkScan (squashed st1 ++ [part])%list (found st1) (include st1)
  else st1.

(** [func Using(failer func(...interface{}))], from [r := recover()] on. *)
Definition Using (failer : list value -> M unit) (r : value) : M unit :=
  match r with
  | VNil => ret tt
  | VFailure f =>
      st <- debug_Stack ;;
      let parts := Split st nl in
      let sq := squashed (fold_left scan_step parts (mkScan [""] false false)) in
      failer (f ++ [VString (Join sq nl)])%list
  | _ => panic r
  end.

(** [func IfErr(err error, args...interface{})] *)
Definition IfErr (err : error) (args : list value) : M unit :=
  match err with
  | Some e => panic (VFailure (VError e :: args))
  | None => ret tt
  end.

(** [func IfDeferred(fn func() error, args...interface{})] *)
Definition IfDeferred (fn : M error) (args : list value) : M unit :=
  err <- fn ;;
  match err with
  | Some e => panic (VFailure (VError e :: args))
  | None => ret tt
  end.

(** [func IfNot(condition bool, args ...interface{})] *)
Definition IfNot (condition : bool) (args : list value) : M unit :=
  if negb condition then panic (VFailure args) else ret tt.

(** A test function: [defer fail.Using(failer)] first, then [body]. *)
Definition guarded (failer : list value -> M unit) (body : list stmt)
  : M unit :=
  func (DeferCall (DeferRecover (Using failer)) :: body).

End Package.

(** The trace string this file's [Using] adds to the report. *)
Definition trace_text (pkgPath : string) (w : World) : value :=
  VString (Join (squashed (fold_left (scan_step pkgPath) (Split (stack w) nl)
                                     (mkScan [""] false false))) nl).

End Part000.

(* ------------------------------------------------------------------ *)
(** ** States the package can be in *)

(** Code outside the package cannot name [failing] or [queue]. *)
Definition external {A} (c : M A) : Prop :=
  forall w, failing (snd (c w)) = failing w /\ queue (snd (c w)) = queue w.

(** The worlds reached from a freshly loaded package by calls of its
    exported functions, whatever their outcome, and by outside code. *)
Inductive reachable (pkgPath : string) : World -> Prop :=
| reach_initial st : reachable pkgPath (initial st)
| reach_outside (c : M unit) w :
    external c -> reachable pkgPath w -> reachable pkgPath (snd (c w))
| reach_Message args w :
    reachable pkgPath w -> reachable pkgPath (snd (Message args w))
| reach_Now args w :
    reachable pkgPath w -> reachable pkgPath (snd (Now args w))
| reach_IfErr err args w :
    reachable pkgPath w -> reachable pkgPath (snd (IfErr err args w))
| reach_IfDeferred fn args w :
    external fn ->
    reachable pkgPath w -> reachable pkgPath (snd (IfDeferred fn args w))
| reach_If c args w :
    reachable pkgPath w -> reachable pkgPath (snd (If c args w))
| reach_Using failer r w :
    (forall a, external (failer a)) ->
    reachable pkgPath w ->
    reachable pkgPath (snd (Using pkgPath failer r w)).

(** Whenever no failure is under way, no note is waiting. *)
Definition consistent (w : World) : Prop :=
  failing w = false -> queue w = [].

(* ------------------------------------------------------------------ *)
(** ** Concrete data for the examples *)

Module Sample.

(** The import path of this repository. *)
Definition path : string := "github.com/sridharv/fail".

(** A stack as [debug.Stack()] prints it under [go test]: the frames of
    the package, two frames of user code, the test runner. *)
Definition raw_lines : list string :=
  [ "goroutine 7 [running]:";
    "runtime/debug.Stack()";
    tab ++ "/usr/local/go/src/runtime/debug/stack.go:24 +0x5e";
    "github.com/sridharv/fail.Using(0xc000012345)";
    tab ++ "/go/src/github.com/sridharv/fail/fail.go:73 +0x8a";
    "panic({0x51e2a0, 0xc00000c0a8})";
    tab ++ "/usr/local/go/src/runtime/panic.go:884 +0x213";
    "github.com/sridharv/fail.Now({0xc000048f20, 0x1, 0x1})";
    tab ++ "/go/src/github.com/sridharv/fail/fail.go:164 +0x7c";
    "github.com/sridharv/fail.IfErr(...)";
    tab ++ "/go/src/github.com/sridharv/fail/fail.go:113";
    "example.com/app.load(0x10)";
    tab ++ "/go/src/example.com/app/load.go:17 +0x1d";
    "example.com/app.TestLoad(0xc000082b60)";
    tab ++ "/go/src/example.com/app/load_test.go:9 +0x4a";
    "testing.tRunner(0xc000082b60, 0x54a1c8)";
    tab ++ "/usr/local/go/src/testing/testing.go:1446 +0x10b";
    "created by testing.(*T).Run";
    tab ++ "/usr/local/go/src/testing/testing.go:1493 +0x35f";
    "" ].

Definition raw_stack : string := Join raw_lines nl.

(** The shape of the trace-reduction property: frames of the package,
    user frames, the runner's frame. *)
Definition internal_lines : list string :=
  [ "github.com/sridharv/fail.Now({0xc000048f20, 0x1, 0x1})";
    tab ++ "/go/src/github.com/sridharv/fail/fail.go:164 +0x7c" ].

Definition user_lines : list string :=
  [ "example.com/app.TestLoad(0xc000082b60)";
    tab ++ "/go/src/example.com/app/load_test.go:9 +0x4a" ].

Definition boundary : string := "testing.tRunner(0xc000082b60, 0x54a1c8)".

(** A trace that needs all four passes: user code re-enters the package
    three times below the failure. *)
Definition nested_lines : list string :=
  [ "github.com/sridharv/fail.Now(...)"; "app.a(0x1)";
    "github.com/sridharv/fail.helper(...)"; "app.b(0x2)";
    "github.com/sridharv/fail.helper(...)"; "app.c(0x3)";
    "github.com/sridharv/fail.helper(...)"; "app.d(0x4)" ].

Definition w0 : World := initial raw_stack.

(** The package after [Message("a")] was built and not thrown, and
    [Now("b")] was then called. *)
Definition stale : World :=
  snd (Now [VString "b"] (snd (Message [VString "a"] w0))).


(** The package while the failure raised by [Now("first")] unwinds. *)
Definition unwinding : World := snd (Now [VString "first"] w0).

(** What a real trace has above the package frames and below the
    runner's. *)
Definition above_lines : list string :=
  [ "goroutine 7 [running]:";
    "runtime/debug.Stack()";
    tab ++ "/usr/local/go/src/runtime/debug/stack.go:24 +0x5e" ].

Definition below_lines : list string :=
  [ tab ++ "/usr/local/go/src/testing/testing.go:1446 +0x10b";
    "created by testing.(*T).Run";
    tab ++ "/usr/local/go/src/testing/testing.go:1493 +0x35f";
    "" ].

(** A package frame between two stretches of user code. *)
Definition helper_lines : list string :=
  [ "github.com/sridharv/fail.IfErr(...)";
    tab ++ "/go/src/github.com/sridharv/fail/fail.go:113" ].

(** A [Close] that fails, as [file.Close] may. *)
Definition close_fails : M error := ret (Some "file already closed").

(** Five levels of user code re-entering the package: one more than the
    four passes of [Using] can peel. *)
Definition deep_lines : list string :=
  [ "github.com/sridharv/fail.Now(...)"; "app.a(0x1)";
    "github.com/sridharv/fail.helper(...)"; "app.b(0x2)";
    "github.com/sridharv/fail.helper(...)"; "app.c(0x3)";
    "github.com/sridharv/fail.helper(...)"; "app.d(0x4)";
    "github.com/sridharv/fail.helper(...)"; "app.e(0x5)" ].

End Sample.

(* ------------------------------------------------------------------ *)
(** ** Vocabulary of the properties *)

Section Vocabulary.

Variable pkgPath : string.

(** The three kinds of line [squash] tells apart, in the order its
    [if ... else if] chain tests them. *)
Definition internal_line (l : string) : bool := Contains l pkgPath.

Definition runner_line (l : string) : bool :=
  negb (Contains l pkgPath) && is_runner l.

Definition user_line (l : string) : bool :=
  negb (Contains l pkgPath) && negb (is_runner l).

(** The result of pass number [n + 1] of [squash] over [trace]. *)
Fixpoint pass_n (n : nat) (trace : list string) : list string * bool :=
  match n with
  | O => squash pkgPath trace
  | S n' => squash pkgPath (fst (pass_n n' trace))
  end.

(** The trace string [Using] adds to the report in world [w]. *)
Definition trace_text (w : World) : value :=
  VString (Join (reduce pkgPath (Split (stack w) nl)) nl).

End Vocabulary.

(** The note [enqueue] leaves for a failure with values [args]. *)
Definition deferred_note (args : list value) : value :=
  VString (nl ++ "Failure on defer: " ++ Join (map fmt.format_v args) " " ++ nl).

(** The world after [Using] captured the stack and reset the package. *)
Definition after_catch (w : World) : World :=
  mkWorld false [] (stack w) (events w ++ [StackCaptured])%list.

(** A deferred cleanup that raises a failure with values [args]. *)
Definition cleanup_raising (args : list value) : stmt :=
  DeferCall (Defer (Now args)).

(** [kept] is [l] with some elements left out and the others in order. *)
Inductive subsequence {A : Type} : list A -> list A -> Prop :=
| sub_nil : subsequence [] []
| sub_skip x kept l : subsequence kept l -> subsequence kept (x :: l)
| sub_keep x kept l : subsequence kept l -> subsequence (x :: kept) (x :: l).

(** The call [c] removes no note: the queue after it is the queue before,
    possibly with notes added at the end. *)
Definition keeps_queue {A : Type} (c : M A) : Prop :=
  forall w, exists added, queue (snd (c w)) = (queue w ++ added)%list.

(** Every entry of the queue is a note of [enqueue]. *)
Definition notes_only (w : World) : Prop :=
  Forall (fun v => exists args, v = deferred_note args) (queue w).

(** What [recover()] returns at the exit of a function leaving with [o]. *)
Definition recovered (o : outcome unit) : value :=
  match o with
  | Panicked v => v
  | Returned _ => VNil
  end.

(* ================================================================== *)
(** * Properties *)

(** ** Strings *)

Module StringFacts.

Lemma HasPrefix_app (p t : string) : HasPrefix (p ++ t) p = true.
Proof.
  induction p as [|c p IH]; simpl; [reflexivity|].
  now rewrite Ascii.eqb_refl, IH.
Qed.

Lemma HasPrefix_empty (s : string) : HasPrefix s "" = true.
Proof. now destruct s. Qed.

Lemma HasPrefix_of_empty (p : string) : HasPrefix "" p = true -> p = "".
Proof. destruct p; simpl; [reflexivity | discriminate]. Qed.

Lemma Contains_empty (s : string) : Contains s "" = true.
Proof. destruct s; simpl; reflexivity. Qed.

Lemma substring_0_empty (n : nat) : substring 0 n "" = "".
Proof. now destruct n. Qed.

Lemma substring_0_length (s : string) : substring 0 (String.length s) s = s.
Proof. induction s as [|c s IH]; simpl; [reflexivity | now rewrite IH]. Qed.

Lemma substring_0_app (s t : string) :
  substring 0 (String.length s) (s ++ t) = s.
Proof.
  induction s as [|c s IH]; simpl.
  - now destruct t.
  - now rewrite IH.
Qed.

Lemma slice_to_app (s t : string) :
  slice_to (s ++ t) (Z.of_nat (String.length s)) = s.
Proof. unfold slice_to. rewrite Nat2Z.id. apply substring_0_app. Qed.

(** A prefix of [s] starts with [p] only if [s] does. *)
Lemma HasPrefix_substring (p s : string) (n : nat) :
  HasPrefix (substring 0 n s) p = true -> HasPrefix s p = true.
Proof.
  revert s n. induction p as [|c p IH]; intros s n H.
  - apply HasPrefix_empty.
  - destruct s as [|d s]; [now rewrite substring_0_empty in H|].
    destruct n as [|n]; simpl in H; [discriminate|].
    simpl. apply andb_true_iff in H as [Hc Hp].
    rewrite Hc. simpl. now apply IH with n.
Qed.

(** A prefix of [s] contains [p] only if [s] does. *)
Lemma Contains_substring (p s : string) (n : nat) :
  Contains (substring 0 n s) p = true -> Contains s p = true.
Proof.
  revert n. induction s as [|d s IH]; intros n H.
  - now rewrite substring_0_empty in H.
  - destruct n as [|n].
    + simpl in H. rewrite orb_false_r in H.
      apply HasPrefix_of_empty in H. subst p. apply Contains_empty.
    + change (substring 0 (S n) (String d s))
        with (String d (substring 0 n s)) in H.
      simpl in H. simpl.
      apply orb_true_iff in H as [H|H].
      * apply (HasPrefix_substring p (String d s) (S n)) in H.
        simpl in H. now rewrite H.
      * rewrite (IH n H). apply orb_true_r.
Qed.

Lemma length_app (s t : string) :
  String.length (s ++ t) = (String.length s + String.length t)%nat.
Proof. induction s as [|c s IH]; simpl; [reflexivity | now rewrite IH]. Qed.

Lemma append_assoc (a b c : string) : ((a ++ b) ++ c = a ++ b ++ c)%string.
Proof. induction a as [|x a IH]; simpl; [reflexivity | now rewrite IH]. Qed.

Lemma substring_skip_app (s t : string) (m : nat) :
  substring (String.length s) m (s ++ t) = substring 0 m t.
Proof. induction s as [|c s IH]; simpl; [reflexivity | exact IH]. Qed.

Lemma HasSuffix_app (s suffix : string) : HasSuffix (s ++ suffix) suffix = true.
Proof.
  unfold HasSuffix. rewrite length_app.
  apply andb_true_iff; split.
  - apply Nat.leb_le. lia.
  - replace (String.length s + String.length suffix - String.length suffix)%nat
      with (String.length s) by lia.
    rewrite substring_skip_app, substring_0_length. apply String.eqb_refl.
Qed.

Lemma LastIndex_cons (c : ascii) (s sep : string) :
  LastIndex (String c s) sep =
  if (0 <=? LastIndex s sep)%Z then (1 + LastIndex s sep)%Z
  else if HasPrefix (String c s) sep then 0%Z else (-1)%Z.
Proof. reflexivity. Qed.

Lemma LastIndex_bounds (s sep : string) : (-1 <= LastIndex s sep)%Z.
Proof.
  induction s as [|c s IH].
  - simpl. destruct (HasPrefix "" sep); lia.
  - rewrite LastIndex_cons.
    destruct (0 <=? LastIndex s sep)%Z eqn:E.
    + apply Z.leb_le in E. lia.
    + destruct (HasPrefix (String c s) sep); lia.
Qed.

(** The last occurrence of [sep]: nothing of [sep ++ t] past its first
    byte starts another one. *)
Lemma LastIndex_app_last (s sep t : string) c u :
  (sep ++ t)%string = String c u ->
  LastIndex u sep = (-1)%Z ->
  LastIndex (s ++ sep ++ t) sep = Z.of_nat (String.length s).
Proof.
  intros Hu Hlast. induction s as [|d s IH].
  - change ("" ++ sep ++ t)%string with (sep ++ t)%string.
    rewrite Hu, LastIndex_cons, Hlast. simpl (0 <=? -1)%Z. cbv iota.
    rewrite <- Hu. now rewrite HasPrefix_app.
  - change ((String d s) ++ sep ++ t)%string
      with (String d (s ++ sep ++ t)).
    rewrite LastIndex_cons, IH.
    destruct (0 <=? Z.of_nat (String.length s))%Z eqn:E.
    + simpl String.length. lia.
    + apply Z.leb_gt in E. lia.
Qed.

End StringFacts.

(** ** Trace reduction: [clean] and [squash] *)

Section Reduction.

Variable pkgPath : string.

Import StringFacts.

(** [clean] returns a prefix of its argument. *)
Lemma clean_is_prefix (str : string) :
  exists n : nat, clean str = substring 0 n str.
Proof.
  unfold clean, slice_to.
  destruct (HasSuffix str ")" && negb (LastIndex str "(" =? -1)%Z).
  - now eexists.
  - destruct (negb (LastIndex str " +0x" =? -1)%Z).
    + now eexists.
    + exists (String.length str). now rewrite substring_0_length.
Qed.

Lemma clean_keeps_outside (str : string) :
  Contains str pkgPath = false -> Contains (clean str) pkgPath = false.
Proof.
  intros H. destruct (clean_is_prefix str) as [n ->].
  destruct (Contains (substring 0 n str) pkgPath) eqn:E; [|reflexivity].
  apply Contains_substring in E. congruence.
Qed.

(** A parenthesized argument list at the end of a line is cut off. *)
Lemma clean_arguments (name arguments : string) :
  Contains arguments "(" = false ->
  clean (name ++ "(" ++ arguments ++ ")") = name.
Proof.
  intros Hargs. unfold clean.
  assert (Hlast : LastIndex (name ++ "(" ++ arguments ++ ")") "("
                  = Z.of_nat (String.length name)).
  { apply LastIndex_app_last with (c := "("%char) (u := (arguments ++ ")")%string).
    - reflexivity.
    - clear name. induction arguments as [|c a IH].
      + reflexivity.
      + change ((String c a) ++ ")")%string with (String c (a ++ ")")).
        rewrite LastIndex_cons.
        simpl in Hargs. apply orb_false_iff in Hargs as [Hc Ha].
        rewrite (IH Ha). simpl (0 <=? -1)%Z. cbv iota.
        simpl. simpl in Hc. now rewrite Hc. }
  rewrite Hlast.
  replace (name ++ "(" ++ arguments ++ ")")%string
    with ((name ++ "(" ++ arguments) ++ ")")%string at 1.
  2:{ now rewrite !append_assoc. }
  rewrite HasSuffix_app.
  replace (Z.of_nat (String.length name) =? -1)%Z with false
    by (symmetry; apply Z.eqb_neq; lia).
  simpl. apply slice_to_app.
Qed.

(** A hexadecimal offset at the end of a line is cut off. *)
Lemma clean_offset (location offset : string) :
  HasSuffix (location ++ " +0x" ++ offset) ")" = false ->
  LastIndex ("+0x" ++ offset) " +0x" = (-1)%Z ->
  clean (location ++ " +0x" ++ offset) = location.
Proof.
  intros Hsuffix Hlast. unfold clean. rewrite Hsuffix. simpl andb. cbv iota.
  rewrite (LastIndex_app_last location " +0x" offset " "%char
             ("+0x" ++ offset)%string eq_refl Hlast).
  replace (Z.of_nat (String.length location) =? -1)%Z with false
    by (symmetry; apply Z.eqb_neq; lia).
  simpl. apply slice_to_app.
Qed.

(** *** The scan, one kind of line at a time *)

Lemma step_internal (st : scan) (l : string) :
  internal_line pkgPath l = true ->
  include st = false ->
  squash_step pkgPath st l = mkScan (squashed st) true false true.
Proof.
  unfold internal_line, squash_step. intros -> Hinc. simpl. now rewrite Hinc.
Qed.

Lemma step_runner (st : scan) (l : string) :
  runner_line pkgPath l = true ->
  squash_step pkgPath st l = mkScan (squashed st) false false (strippedPath st).
Proof.
  unfold runner_line, squash_step. intros H.
  apply andb_true_iff in H as [Hc Hr].
  apply negb_true_iff in Hc. now rewrite Hc, Hr.
Qed.

Lemma step_user_found (st : scan) (l : string) :
  user_line pkgPath l = true ->
  found st = true ->
  squash_step pkgPath st l =
  mkScan (squashed st ++ [clean l]) true true (strippedPath st).
Proof.
  unfold user_line, squash_step. intros H Hf.
  apply andb_true_iff in H as [Hc Hr].
  apply negb_true_iff in Hc. apply negb_true_iff in Hr.
  now rewrite Hc, Hr, Hf.
Qed.

Lemma scan_internal (ls : list string) (st : scan) :
  Forall (fun l => internal_line pkgPath l = true) ls ->
  ls <> [] ->
  include st = false ->
  fold_left (squash_step pkgPath) ls st = mkScan (squashed st) true false true.
Proof.
  revert st. induction ls as [|l ls IH]; intros st Hall Hne Hinc.
  - congruence.
  - inversion Hall as [|? ? Hl Hls]; subst. simpl.
    rewrite (step_internal st l Hl Hinc).
    destruct ls as [|l' ls']; [reflexivity|].
    now rewrite IH.
Qed.

Lemma scan_user (ls : list string) (st : scan) :
  Forall (fun l => user_line pkgPath l = true) ls ->
  ls <> [] ->
  found st = true ->
  fold_left (squash_step pkgPath) ls st =
  mkScan (squashed st ++ map clean ls) true true (strippedPath st).
Proof.
  revert st. induction ls as [|l ls IH]; intros st Hall Hne Hf.
  - congruence.
  - inversion Hall as [|? ? Hl Hls]; subst. simpl fold_left.
    rewrite (step_user_found st l Hl Hf).
    destruct ls as [|l' ls']; [reflexivity|].
    rewrite IH; [|assumption|discriminate|reflexivity].
    simpl squashed. simpl strippedPath.
    now rewrite <- app_assoc.
Qed.

(** Lines outside the package never set [strippedPath]. *)
Lemma scan_outside (ls : list string) (st : scan) :
  Forall (fun l => Contains l pkgPath = false) ls ->
  strippedPath (fold_left (squash_step pkgPath) ls st) = strippedPath st.
Proof.
  revert st. induction ls as [|l ls IH]; intros st Hall; [reflexivity|].
  inversion Hall as [|? ? Hl Hls]; subst. simpl. rewrite (IH _ Hls).
  unfold squash_step. rewrite Hl.
  destruct (is_runner l), (found st), (include st); reflexivity.
Qed.

Lemma squash_outside (trace : list string) :
  Forall (fun l => Contains l pkgPath = false) trace ->
  squash pkgPath trace = (trace, false).
Proof.
  intros Hall. unfold squash. now rewrite (scan_outside trace _ Hall).
Qed.

(** One pass over package frames, user frames and the runner's frame. *)
Lemma squash_shape (internals users : list string) (runner : string) :
  internals <> [] -> users <> [] ->
  Forall (fun l => internal_line pkgPath l = true) internals ->
  Forall (fun l => user_line pkgPath l = true) users ->
  runner_line pkgPath runner = true ->
  squash pkgPath (internals ++ users ++ [runner]) =
  ("" :: map clean users, true).
Proof.
  intros Hi Hu Hall_i Hall_u Hr. unfold squash.
  rewrite !fold_left_app.
  rewrite (scan_internal internals squash_init Hall_i Hi eq_refl).
  rewrite (scan_user users (mkScan _ true false true) Hall_u Hu eq_refl).
  simpl fold_left. rewrite step_runner by assumption. reflexivity.
Qed.

(** The loop of [Using] stops after a pass that found nothing. *)
Lemma reduce_settled (trace sq : list string) :
  squash pkgPath trace = (sq, true) ->
  squash pkgPath sq = (sq, false) ->
  reduce pkgPath trace = sq.
Proof.
  intros H1 H2. unfold reduce. rewrite H1. simpl. now rewrite H2.
Qed.

End Reduction.

Section ReductionClaims.

Variable pkgPath : string.

Import StringFacts.

(** C8.  A trace none of whose lines contains the package path comes back
    from one pass of [squash] unchanged, with [false] as the second
    result ("nothing further to strip"); the whole reduction of [Using]
    therefore leaves such a trace as it is. *)
Theorem squash_reduced_trace_unchanged (trace : list string) :
  Forall (fun l => Contains l pkgPath = false) trace ->
  squash pkgPath trace = (trace, false) /\
  reduce pkgPath trace = trace.
Proof.
  intros Hall. pose proof (squash_outside pkgPath trace Hall) as H.
  split; [exact H|]. unfold reduce. now rewrite H.
Qed.

Lemma squash_loop_passes (trace : list string) (left i : nat) :
  exists k : nat,
    i <= k <= i + left /\
    squash_loop pkgPath left i (fst (pass_n pkgPath i trace))
                (snd (pass_n pkgPath i trace))
    = (k, pass_n pkgPath k trace) /\
    (forall j, i <= j < k -> snd (pass_n pkgPath j trace) = true) /\
    (k < i + left -> snd (pass_n pkgPath k trace) = false).
Proof.
  revert i. induction left as [|left IH]; intros i.
  - exists i. simpl. repeat split; try lia.
    now destruct (pass_n pkgPath i trace).
  - simpl squash_loop.
    destruct (snd (pass_n pkgPath i trace)) eqn:Hmore.
    + destruct (IH (S i)) as (k & Hk & Hloop & Hbefore & Hlast).
      exists k. simpl pass_n in Hloop.
      destruct (squash pkgPath (fst (pass_n pkgPath i trace))) as [sq' more'].
      simpl in Hloop. repeat split; try lia; try assumption.
      * intros j Hj. destruct (Nat.eq_dec j i) as [->|Hne]; [assumption|].
        apply Hbefore. lia.
      * intros Hlt. apply Hlast. lia.
    + exists i. repeat split; try lia.
      * rewrite <- Hmore. now destruct (pass_n pkgPath i trace).
      * intros _. exact Hmore.
Qed.

(** The loop of [Using], counted: with [i] the final value of its counter,
    the result is that of pass [i + 1]; every earlier pass returned [true];
    the loop left before [i = 3] only after a pass that returned [false]. *)
Lemma reduce_passes (trace : list string) :
  exists i : nat,
    i <= 3 /\
    fst (squash_loop pkgPath 3 0 (fst (squash pkgPath trace))
                     (snd (squash pkgPath trace))) = i /\
    reduce pkgPath trace = fst (pass_n pkgPath i trace) /\
    (forall j, j < i -> snd (pass_n pkgPath j trace) = true) /\
    (i < 3 -> snd (pass_n pkgPath i trace) = false).
Proof.
  destruct (squash_loop_passes trace 3 0) as (k & Hk & Hloop & Hbefore & Hlast).
  exists k. simpl pass_n in Hloop.
  repeat split.
  - lia.
  - now rewrite Hloop.
  - unfold reduce. destruct (squash pkgPath trace) as [sq more].
    cbn [fst snd] in Hloop. now rewrite Hloop.
  - intros j Hj. apply Hbefore. lia.
  - intros Hlt. apply Hlast. lia.
Qed.

(** C3, as the code has it.  For a trace made of at least one line that
    contains the package path, then N >= 1 user lines (neither package
    nor runner lines), then a line of the test runner, one pass of
    [squash], and the whole reduction of [Using], return one empty
    leading entry followed by exactly the N user lines, each passed
    through [clean], and nothing after them.  ([clean_arguments] and
    [clean_offset] say what [clean] cuts off.) *)
Theorem squash_user_frames (internals users : list string) (runner : string) :
  internals <> [] -> users <> [] ->
  Forall (fun l => internal_line pkgPath l = true) internals ->
  Forall (fun l => user_line pkgPath l = true) users ->
  runner_line pkgPath runner = true ->
  squash pkgPath (internals ++ users ++ [runner]) =
    ("" :: map clean users, true) /\
  reduce pkgPath (internals ++ users ++ [runner]) = "" :: map clean users.
Proof.
  intros Hi Hu Hall_i Hall_u Hr.
  pose proof (squash_shape pkgPath internals users runner
                Hi Hu Hall_i Hall_u Hr) as H1.
  split; [exact H1|].
  apply reduce_settled; [exact H1|].
  apply squash_outside. constructor.
  - destruct users as [|u us]; [congruence|].
    inversion Hall_u as [|? ? Huser _]; subst.
    unfold user_line in Huser. apply andb_true_iff in Huser as [Hc _].
    apply negb_true_iff in Hc.
    destruct pkgPath as [|c p]; [|reflexivity].
    now rewrite Contains_empty in Hc.
  - apply Forall_forall. intros l Hin.
    apply in_map_iff in Hin as (u & <- & Hin).
    apply clean_keeps_outside.
    rewrite Forall_forall in Hall_u. specialize (Hall_u u Hin).
    unfold user_line in Hall_u. apply andb_true_iff in Hall_u as [Hc _].
    now apply negb_true_iff in Hc.
Qed.

End ReductionClaims.

(** ** Raising: [Message], [enqueue], [Now] *)

Section Raising.

Lemma set_failing_same (w : World) (b : bool) :
  failing w = b -> set_failing b w = w.
Proof. destruct w; simpl; intros ->; reflexivity. Qed.

Lemma Message_run (args : list value) (w : World) :
  Message args w = (Returned (VFailure args), set_failing true w).
Proof. reflexivity. Qed.

(** The panic inside [enqueue] is caught by its own deferred guard. *)
Lemma enqueue_run (args : list value) (w : World) :
  enqueue (VFailure args) w =
  (Returned tt, set_queue (queue w ++ [deferred_note args]) w).
Proof. reflexivity. Qed.

Lemma Now_not_failing (args : list value) (w : World) :
  failing w = false ->
  Now args w = (Panicked (VFailure args), set_failing true w).
Proof. intros H. unfold Now, bind, get_failing. now rewrite H. Qed.

Lemma Now_failing (args : list value) (w : World) :
  failing w = true ->
  Now args w = (Returned tt, set_queue (queue w ++ [deferred_note args]) w).
Proof.
  destruct w as [fl q st ev]. simpl. intros ->. reflexivity.
Qed.

(** Cleanups that raise while a failure unwinds leave their notes in the
    order they run and let the failure go on. *)
Lemma unwind_cleanups (secondary : list (list value))
      (rest : list deferred) (o : outcome unit) (w : World) :
  failing w = true ->
  unwind (map (fun a => Defer (Now a)) secondary ++ rest) o w =
  unwind rest o (set_queue (queue w ++ map deferred_note secondary) w).
Proof.
  revert w. induction secondary as [|a secondary IH]; intros w H.
  - simpl. rewrite app_nil_r. now destruct w.
  - simpl. rewrite (Now_failing a w H).
    rewrite IH by exact H. simpl.
    now rewrite <- app_assoc.
Qed.

Lemma exec_cleanups (l : list (list value)) (rest : list stmt)
      (pending : list deferred) (w : World) :
  exec (map cleanup_raising l ++ rest) pending w =
  exec rest (map (fun a => Defer (Now a)) (rev l) ++ pending) w.
Proof.
  revert pending. induction l as [|a l IH]; intros pending; [reflexivity|].
  simpl. rewrite IH, map_app, <- app_assoc. reflexivity.
Qed.

End Raising.

(** ** Recovery: [Using] *)

Section Recovery.

Variable pkgPath : string.
Variable failer : list value -> M unit.

Lemma Using_nil (w : World) : Using pkgPath failer VNil w = (Returned tt, w).
Proof. reflexivity. Qed.

Lemma Using_foreign (r : value) (w : World) :
  is_nil r = false -> is_failure r = false ->
  Using pkgPath failer r w = (Panicked r, w).
Proof. destruct r; simpl; intros Hn Hf; try discriminate; reflexivity. Qed.

Lemma Using_failure (f : list value) (w : World) :
  Using pkgPath failer (VFailure f) w =
  failer (f ++ [trace_text pkgPath w] ++ queue w) (after_catch w).
Proof.
  unfold Using, bind, debug_Stack, get_queue, put_failing, put_queue.
  simpl. now rewrite <- app_assoc.
Qed.

(** A primary failure, raised by [Now] below the guard, with cleanups
    that raise registered in between. *)
Lemma guarded_unwind (f : list value) (secondary : list (list value))
      (rest : list stmt) (w : World) :
  failing w = false ->
  guarded pkgPath failer
    (map cleanup_raising (rev secondary) ++ Call (Now f) :: rest) w =
  failer (f ++ [trace_text pkgPath w] ++ queue w
            ++ map deferred_note secondary)
         (after_catch w).
Proof.
  intros H. unfold guarded, func. simpl exec.
  rewrite exec_cleanups, rev_involutive. simpl exec.
  rewrite (Now_not_failing f w H).
  rewrite unwind_cleanups by reflexivity.
  cbn [unwind run_deferred].
  rewrite Using_failure.
  unfold trace_text, after_catch. cbn [set_queue set_failing stack events queue].
  now destruct (failer _ _).
Qed.

End Recovery.

(** ** States the package reaches *)

Section Reachability.

Variable pkgPath : string.

Lemma Now_sets_failing (args : list value) (w : World) :
  failing (snd (Now args w)) = true.
Proof.
  destruct (failing w) eqn:H.
  - now rewrite (Now_failing args w H).
  - now rewrite (Now_not_failing args w H).
Qed.

Lemma consistent_when_failing (w : World) : failing w = true -> consistent w.
Proof. unfold consistent. congruence. Qed.

Lemma consistent_external {A} (c : M A) (w : World) :
  external c -> consistent w -> consistent (snd (c w)).
Proof.
  intros Hc Hw. destruct (Hc w) as [Hf Hq].
  unfold consistent. rewrite Hf, Hq. exact Hw.
Qed.

(** In every reachable state, no failure under way means no note waiting. *)
Lemma reachable_consistent (w : World) : reachable pkgPath w -> consistent w.
Proof.
  induction 1 as [st | c w Hc _ IH | args w _ _ | args w _ _
                  | err args w _ IH | fn args w Hfn _ IH | c args w _ IH
                  | failer r w Hfailer _ IH].
  - now unfold consistent.
  - now apply consistent_external.
  - now apply consistent_when_failing.
  - apply consistent_when_failing, Now_sets_failing.
  - destruct err as [e|]; [|exact IH].
    apply consistent_when_failing, Now_sets_failing.
  - unfold IfDeferred, bind.
    pose proof (consistent_external fn w Hfn IH) as Hw1.
    destruct (fn w) as [[[e|]|v] w1]; simpl in Hw1; try exact Hw1.
    apply consistent_when_failing, Now_sets_failing.
  - destruct c; [|exact IH].
    apply consistent_when_failing, Now_sets_failing.
  - destruct r as [|m|s|n|f].
    + exact IH.
    + exact IH.
    + exact IH.
    + exact IH.
    + rewrite Using_failure.
      apply (consistent_external (failer _) (after_catch w) (Hfailer _)).
      now unfold consistent.
Qed.

End Reachability.

(** ** Calls that come before a raise, and what raising does to the queue *)

Section BeforeTheRaise.


Lemma keeps_queue_Message (args : list value) : keeps_queue (Message args).
Proof. intros w. exists []. simpl. now rewrite app_nil_r. Qed.

Lemma keeps_queue_Now (args : list value) : keeps_queue (Now args).
Proof.
  intros w. destruct (failing w) eqn:H.
  - exists [deferred_note args]. now rewrite (Now_failing args w H).
  - exists []. rewrite (Now_not_failing args w H). simpl.
    now rewrite app_nil_r.
Qed.

Lemma keeps_queue_ret {A} (a : A) : keeps_queue (ret a).
Proof. intros w. exists []. simpl. now rewrite app_nil_r. Qed.

Lemma keeps_queue_IfDeferred (fn : M error) (args : list value) :
  external fn -> keeps_queue (IfDeferred fn args).
Proof.
  intros Hfn w. unfold IfDeferred, bind.
  destruct (Hfn w) as [_ Hq].
  destruct (fn w) as [[[e|]|v] w1]; simpl in Hq.
  - destruct (keeps_queue_Now (VError e :: args) w1) as [added Ha].
    exists added. now rewrite Ha, Hq.
  - exists []. simpl. now rewrite Hq, app_nil_r.
  - exists []. simpl. now rewrite Hq, app_nil_r.
Qed.

End BeforeTheRaise.

(** ** The raise and recover protocol *)

Section Protocol.

Variable pkgPath : string.
Variable failer : list value -> M unit.


(** C2, as the code has it.  Called while [failing] is true, [Now] returns
    to its caller without panicking: the failure it throws inside [enqueue]
    is caught by the guard [enqueue] defers, and one note is appended to
    the queue.  The note is a newline, then "Failure on defer: ", then the
    values as [fmt.Sprintln] renders them (separated by spaces and ended by
    a newline).  Run as a deferred cleanup, such a call leaves the outcome
    of the unwinding function as it was. *)
Theorem Now_while_failing_enqueues (args : list value) (w : World) :
  failing w = true ->
  Now args w = (Returned tt, set_queue (queue w ++ [deferred_note args]) w) /\
  deferred_note args =
    VString (nl ++ "Failure on defer: " ++ fmt.Sprintln args) /\
  forall o : outcome unit,
    run_deferred (Defer (Now args)) o w =
    (o, set_queue (queue w ++ [deferred_note args]) w).
Proof.
  intros H. repeat split.
  - exact (Now_failing args w H).
  - intros o. unfold run_deferred. now rewrite (Now_failing args w H).
Qed.

(** C4.  When [Using] catches a failure, the reporter receives, in this
    order, the values of the failure, the reduced trace joined into one
    string, and the queued notes.  For a failure raised by [Now] under the
    guard, with cleanups that raise registered in between, the notes are
    those of the cleanups in the order they ran (the reverse of the order
    of their [defer] statements). *)
Theorem Using_report_order (f : list value) (secondary : list (list value))
        (rest : list stmt) (w : World) :
  Using pkgPath failer (VFailure f) w =
    failer (f ++ [trace_text pkgPath w] ++ queue w) (after_catch w) /\
  (failing w = false ->
   guarded pkgPath failer
     (map cleanup_raising (rev secondary) ++ Call (Now f) :: rest) w =
   failer (f ++ [trace_text pkgPath w] ++ queue w
             ++ map deferred_note secondary)
          (after_catch w)).
Proof.
  split.
  - apply Using_failure.
  - apply guarded_unwind.
Qed.

(** C5.  A recovered value that is neither nil nor a failure is thrown
    again as it is, and the world is untouched: no call of the reporter, no
    call of [debug.Stack], [failing] and [queue] as before. *)
Theorem Using_rethrows_foreign (r : value) (w : World) :
  is_nil r = false -> is_failure r = false ->
  Using pkgPath failer r w = (Panicked r, w) /\
  events (snd (Using pkgPath record_report r w)) = events w.
Proof.
  intros Hn Hf. split.
  - now apply Using_foreign.
  - now rewrite (Using_foreign pkgPath record_report r w Hn Hf).
Qed.

(** C6, as the code has it.  The check that raises on a false condition is
    [IfNot] of the file that has it: it panics with the failure [args]
    when [condition] is false and does nothing when it is true, and under
    that file's guard [IfNot(false, "x", " != ", "y")] makes the reporter
    receive the three strings and the trace string.  The check of
    [fail.go] is [If], with the opposite polarity: [If(false, ...)] does
    nothing, under the guard too, and [If(true, ...)] is [Now]; with
    [failing] false it raises, and under [fail.go]'s guard
    [If(true, "x", " != ", "y")] makes the reporter receive the three
    strings, the trace string and the queue. *)
Theorem IfNot_raises_when_false_If_when_true (args : list value) (w : World) :
  Part000.IfNot true args w = (Returned tt, w) /\
  Part000.IfNot false args w = (Panicked (VFailure args), w) /\
  Part000.guarded pkgPath failer
    [Call (Part000.IfNot false [VString "x"; VString " != "; VString "y"])] w =
    failer [VString "x"; VString " != "; VString "y";
            Part000.trace_text pkgPath w]
           (log_event StackCaptured w) /\
  If false args w = (Returned tt, w) /\
  guarded pkgPath failer [Call (If false args)] w = (Returned tt, w) /\
  If true args w = Now args w /\
  (failing w = false ->
   If true args w = (Panicked (VFailure args), set_failing true w) /\
   guarded pkgPath failer
     [Call (If true [VString "x"; VString " != "; VString "y"])] w =
     failer ([VString "x"; VString " != "; VString "y";
              trace_text pkgPath w] ++ queue w)
            (after_catch w)).
Proof.
  repeat split.
  - unfold Part000.guarded, func. cbn [exec Part000.IfNot negb panic unwind
                                        run_deferred].
    unfold Part000.Using, Part000.trace_text, bind, debug_Stack.
    cbn [stack log_event app]. now destruct (failer _ _).
  - now apply Now_not_failing.
  - pose proof (guarded_unwind pkgPath failer
                  [VString "x"; VString " != "; VString "y"] [] [] w H) as G.
    simpl in G. rewrite app_nil_r in G. exact G.
Qed.

(** C7.  On a caught failure [Using] runs [squash] once and then repeats
    it while [i < 3] and the last pass returned [true]: with [i] the final
    value of the loop counter, [i + 1 <= 4] passes were applied in
    sequence and the trace reported is the result of the last of them;
    every pass before the last returned [true], and when fewer than four
    passes were made the last one returned [false] ("nothing further to
    strip"). *)
Theorem Using_at_most_four_passes (f : list value) (w : World) :
  exists i : nat,
    i <= 3 /\
    fst (squash_loop pkgPath 3 0
           (fst (squash pkgPath (Split (stack w) nl)))
           (snd (squash pkgPath (Split (stack w) nl)))) = i /\
    Using pkgPath failer (VFailure f) w =
      failer (f ++ [VString (Join (fst (pass_n pkgPath i (Split (stack w) nl)))
                                  nl)] ++ queue w)
             (after_catch w) /\
    (forall j, j < i -> snd (pass_n pkgPath j (Split (stack w) nl)) = true) /\
    (i < 3 -> snd (pass_n pkgPath i (Split (stack w) nl)) = false).
Proof.
  destruct (reduce_passes pkgPath (Split (stack w) nl))
    as (i & Hi & Hloop & Hreduce & Hbefore & Hlast).
  exists i. repeat split; try assumption.
  rewrite Using_failure. unfold trace_text. now rewrite Hreduce.
Qed.

(** C9, as the code has it.  [Message] sets [failing] to true and leaves
    the queue alone.  No raise operation removes a note: after [Message],
    [Now], [IfErr], [If] and [IfDeferred] the queue is the queue before,
    with at most notes added; [Using] leaves it alone too unless it caught
    a failure, and then it empties it before the reporter runs.  In a
    state the package can reach with [failing] false the queue is already
    empty, so right after a first raise by [Now] the flag is true and the
    queue is empty. *)
Theorem Message_sets_flag_only (args : list value) (w : World) :
  Message args w = (Returned (VFailure args), set_failing true w) /\
  keeps_queue (Message args) /\
  keeps_queue (Now args) /\
  (forall err, keeps_queue (IfErr err args)) /\
  (forall c, keeps_queue (If c args)) /\
  (forall fn, external fn -> keeps_queue (IfDeferred fn args)) /\
  (forall r, is_failure r = false ->
             queue (snd (Using pkgPath failer r w)) = queue w) /\
  (forall f, Using pkgPath failer (VFailure f) w =
             failer (f ++ [trace_text pkgPath w] ++ queue w) (after_catch w)) /\
  queue (after_catch w) = [] /\
  (reachable pkgPath w -> failing w = false ->
   Now args w = (Panicked (VFailure args), set_failing true w) /\
   failing (snd (Now args w)) = true /\
   queue (snd (Now args w)) = []).
Proof.
  split; [reflexivity|].
  split; [apply keeps_queue_Message|].
  split; [apply keeps_queue_Now|].
  split.
  { intros [e|]; [apply keeps_queue_Now | apply keeps_queue_ret]. }
  split.
  { intros [|]; [apply keeps_queue_Now | apply keeps_queue_ret]. }
  split; [intros fn Hfn; now apply keeps_queue_IfDeferred|].
  split.
  { intros r Hr. destruct r; try reflexivity. discriminate Hr. }
  split; [intros f; apply Using_failure|].
  split; [reflexivity|].
  intros Hreach Hflag. repeat split.
  - now apply Now_not_failing.
  - apply Now_sets_failing.
  - rewrite (Now_not_failing args w Hflag). simpl.
    exact (reachable_consistent pkgPath w Hreach Hflag).
Qed.

(** C10.  [Using] puts [failing] back to false and empties the queue on
    the branch that caught a failure and nowhere else, and the reporter
    runs in the state so reset.  With nil recovered, or a foreign value,
    the world is returned as it was: after a test that built a [Message]
    and never threw it, [failing] is still true past the guard. *)
Theorem Using_resets_only_on_failure (w : World) :
  Using pkgPath failer VNil w = (Returned tt, w) /\
  (forall r, is_nil r = false -> is_failure r = false ->
             Using pkgPath failer r w = (Panicked r, w)) /\
  (forall f, Using pkgPath failer (VFailure f) w =
             failer (f ++ [trace_text pkgPath w] ++ queue w) (after_catch w)) /\
  failing (after_catch w) = false /\
  queue (after_catch w) = [] /\
  (forall args,
     guarded pkgPath failer [Call (f <- Message args ;; ret tt)] w =
     (Returned tt, set_failing true w)).
Proof.
  repeat split.
  - intros r. apply Using_foreign.
  - intros f. apply Using_failure.
Qed.

(** A flag left over from an unthrown [Message] makes the next failure a
    note: the guard sees no panic and the reporter is not called. *)
Lemma stale_flag_swallows_failure (args : list value) (w : World) :
  failing w = true ->
  guarded pkgPath failer [Call (Now args)] w =
  (Returned tt, set_queue (queue w ++ [deferred_note args]) w).
Proof.
  intros H. unfold guarded, func. cbn [exec].
  now rewrite (Now_failing args w H).
Qed.

End Protocol.

(** ** The properties on concrete runs *)



(** Scenario A of the specification, evaluated: the reporter is called once,
    with the error and the trace of the two user frames. *)
Example scenario_IfErr :
  events (snd (guarded Sample.path record_report
                 [Call (IfErr (Some "boom") [])] Sample.w0)) =
  [ StackCaptured;
    Reported
      [ VError "boom";
        VString (Join [ "";
                        "example.com/app.load";
                        tab ++ "/go/src/example.com/app/load.go:17";
                        "example.com/app.TestLoad";
                        tab ++ "/go/src/example.com/app/load_test.go:9" ] nl) ] ].
Proof. vm_compute. reflexivity. Qed.

Lemma Now_while_failing_enqueues_witness :
  failing Sample.unwinding = true /\
  Now [VString "second"] Sample.unwinding =
  (Returned tt,
   set_queue (queue Sample.unwinding ++ [deferred_note [VString "second"]])
             Sample.unwinding).
Proof.
  split; [reflexivity|].
  apply (Now_while_failing_enqueues [VString "second"] Sample.unwinding).
  reflexivity.
Defined.

(** The note [Now("second")] queues during an unwind is not the one line
    "Failure on defer: second": a newline precedes it and [Sprintln]'s
    newline ends it. *)
Lemma Now_note_is_not_one_line :
  failing Sample.unwinding = true /\
  queue (snd (Now [VString "second"] Sample.unwinding)) =
    [VString (nl ++ "Failure on defer: second" ++ nl)] /\
  VString (nl ++ "Failure on defer: second" ++ nl) <>
    VString ("Failure on defer: " ++ fmt.Sprintln [VString "second"]) /\
  VString (nl ++ "Failure on defer: second" ++ nl) <>
    VString "Failure on defer: second".
Proof.
  repeat split; try reflexivity; vm_compute; discriminate.
Qed.

(** Scenario C of the specification, evaluated. *)
Example scenario_deferred_Now :
  events (snd (guarded Sample.path record_report
                 [cleanup_raising [VString "second"];
                  Call (Now [VString "first"])] (initial ""))) =
  [ StackCaptured;
    Reported [ VString "first"; VString "";
               VString (nl ++ "Failure on defer: second" ++ nl) ] ].
Proof. vm_compute. reflexivity. Qed.

Lemma squash_user_frames_witness :
  squash Sample.path
    (Sample.internal_lines ++ Sample.user_lines ++ [Sample.boundary]) =
    ("" :: map clean Sample.user_lines, true) /\
  reduce Sample.path
    (Sample.internal_lines ++ Sample.user_lines ++ [Sample.boundary]) =
    "" :: map clean Sample.user_lines.
Proof.
  apply (squash_user_frames Sample.path Sample.internal_lines
           Sample.user_lines Sample.boundary).
  - discriminate.
  - discriminate.
  - repeat constructor.
  - repeat constructor.
  - reflexivity.
Defined.

(** On package frames, two user lines and the runner's frame, the result
    of [squash] has three entries: an empty one comes before the two user
    lines. *)
Lemma squash_keeps_leading_entry :
  Forall (fun l => internal_line Sample.path l = true) Sample.internal_lines /\
  Forall (fun l => user_line Sample.path l = true) Sample.user_lines /\
  runner_line Sample.path Sample.boundary = true /\
  squash Sample.path
    (Sample.internal_lines ++ Sample.user_lines ++ [Sample.boundary]) =
    ([ ""; "example.com/app.TestLoad";
       tab ++ "/go/src/example.com/app/load_test.go:9" ], true) /\
  fst (squash Sample.path
         (Sample.internal_lines ++ Sample.user_lines ++ [Sample.boundary])) <>
    map clean Sample.user_lines /\
  reduce Sample.path
    (Sample.internal_lines ++ Sample.user_lines ++ [Sample.boundary]) <>
    map clean Sample.user_lines.
Proof.
  repeat split; try (repeat constructor); vm_compute; discriminate.
Qed.

(** What [clean] cuts off, on lines of a real trace. *)
Example clean_samples :
  clean "example.com/app.TestLoad(0xc000082b60)" = "example.com/app.TestLoad" /\
  clean (tab ++ "/go/src/example.com/app/load_test.go:9 +0x4a") =
    tab ++ "/go/src/example.com/app/load_test.go:9" /\
  clean "example.com/app.(*T).Run.func1()" = "example.com/app.(*T).Run.func1" /\
  clean "goroutine 7 [running]:" = "goroutine 7 [running]:".
Proof. repeat split. Qed.

Lemma Using_report_order_witness :
  failing Sample.w0 = false /\
  guarded Sample.path record_report
    (map cleanup_raising (rev [[VString "second"]; [VString "third"]])
       ++ [Call (Now [VString "first"])]) Sample.w0 =
  record_report
    ([VString "first"] ++ [trace_text Sample.path Sample.w0] ++ queue Sample.w0
       ++ map deferred_note [[VString "second"]; [VString "third"]])
    (after_catch Sample.w0).
Proof.
  split; [reflexivity|].
  apply (Using_report_order Sample.path record_report [VString "first"]
           [[VString "second"]; [VString "third"]] [] Sample.w0).
  reflexivity.
Defined.

(** Two cleanups: the one deferred last runs first, and its note is first. *)
Example scenario_two_cleanups :
  events (snd (guarded Sample.path record_report
                 [cleanup_raising [VString "outer"];
                  cleanup_raising [VString "inner"];
                  Call (Now [VString "first"])] (initial ""))) =
  [ StackCaptured;
    Reported [ VString "first"; VString "";
               VString (nl ++ "Failure on defer: inner" ++ nl);
               VString (nl ++ "Failure on defer: outer" ++ nl) ] ].
Proof. vm_compute. reflexivity. Qed.

Lemma Using_rethrows_foreign_witness :
  Using Sample.path record_report
    (VError "runtime error: index out of range") Sample.stale =
    (Panicked (VError "runtime error: index out of range"), Sample.stale) /\
  events (snd (Using Sample.path record_report
                 (VError "runtime error: index out of range") Sample.stale)) =
    events Sample.stale.
Proof.
  apply (Using_rethrows_foreign Sample.path record_report
           (VError "runtime error: index out of range") Sample.stale);
    reflexivity.
Defined.

Lemma IfNot_raises_when_false_If_when_true_witness :
  failing Sample.w0 = false /\
  guarded Sample.path record_report
    [Call (If true [VString "x"; VString " != "; VString "y"])]
    Sample.w0 =
  record_report
    ([VString "x"; VString " != "; VString "y";
      trace_text Sample.path Sample.w0] ++ queue Sample.w0)
    (after_catch Sample.w0).
Proof.
  split; [reflexivity|].
  apply (IfNot_raises_when_false_If_when_true Sample.path record_report []
           Sample.w0).
  reflexivity.
Defined.

(** Scenario B on the check of [fail.go]: [If(false, "x", " != ", "y")]
    under the guard returns, and the reporter is not called; it is on a
    true condition that [If] raises. *)
Lemma If_false_reports_nothing :
  If false [VString "x"; VString " != "; VString "y"] Sample.w0 =
    (Returned tt, Sample.w0) /\
  guarded Sample.path record_report
    [Call (If false [VString "x"; VString " != "; VString "y"])] Sample.w0 =
    (Returned tt, Sample.w0) /\
  events (snd (guarded Sample.path record_report
                 [Call (If false [VString "x"; VString " != "; VString "y"])]
                 Sample.w0)) = [] /\
  If true [VString "x"; VString " != "; VString "y"] Sample.w0 =
    (Panicked (VFailure [VString "x"; VString " != "; VString "y"]),
     set_failing true Sample.w0).
Proof. repeat split. Qed.

(** Scenario B of the specification, evaluated in the file that has
    [IfNot]: its [Using] keeps every line from the first one after a
    package frame up to the runner, as printed. *)
Example scenario_IfNot :
  events (snd (Part000.guarded Sample.path record_report
                 [Call (Part000.IfNot false
                          [VString "x"; VString " != "; VString "y"])]
                 (initial (Join (Sample.internal_lines ++ Sample.user_lines
                                   ++ [Sample.boundary]) nl)))) =
  [ StackCaptured;
    Reported [ VString "x"; VString " != "; VString "y";
               VString (Join ("" :: Sample.user_lines) nl) ] ].
Proof. vm_compute. reflexivity. Qed.

(** [If] of [fail.go] has the polarity of its name. *)
Example If_raises_when_true :
  If true [VString "x"] Sample.w0 =
    (Panicked (VFailure [VString "x"]), set_failing true Sample.w0) /\
  If false [VString "x"] Sample.w0 = (Returned tt, Sample.w0).
Proof. split; reflexivity. Qed.

Lemma Using_at_most_four_passes_witness :
  exists i : nat,
    i <= 3 /\
    fst (squash_loop Sample.path 3 0
           (fst (squash Sample.path (Split (stack Sample.w0) nl)))
           (snd (squash Sample.path (Split (stack Sample.w0) nl)))) = i /\
    Using Sample.path record_report (VFailure [VString "first"]) Sample.w0 =
      record_report
        ([VString "first"]
           ++ [VString (Join (fst (pass_n Sample.path i
                                     (Split (stack Sample.w0) nl))) nl)]
           ++ queue Sample.w0)
        (after_catch Sample.w0) /\
    (forall j, j < i ->
       snd (pass_n Sample.path j (Split (stack Sample.w0) nl)) = true) /\
    (i < 3 -> snd (pass_n Sample.path i (Split (stack Sample.w0) nl)) = false).
Proof.
  exact (Using_at_most_four_passes Sample.path record_report
           [VString "first"] Sample.w0).
Defined.

(** On the sample stack the loop stops after its second repeat: the first
    pass keeps the package frames below [panic], the second removes them,
    the third finds nothing. *)
Example sample_stack_three_passes :
  fst (squash_loop Sample.path 3 0
         (fst (squash Sample.path (Split (stack Sample.w0) nl)))
         (snd (squash Sample.path (Split (stack Sample.w0) nl)))) = 2.
Proof. vm_compute. reflexivity. Qed.

(** The bound is reached and it cuts: four levels are peeled by the four
    passes; of five levels, package lines are left in the result. *)
Example four_passes_used :
  squash_loop Sample.path 3 0 (fst (squash Sample.path Sample.nested_lines))
              (snd (squash Sample.path Sample.nested_lines)) =
    (3, ([""; "app.d"], true)) /\
  reduce Sample.path Sample.deep_lines =
    [""; "app.d"; "github.com/sridharv/fail.helper"; "app.e"].
Proof. split; vm_compute; reflexivity. Qed.

Lemma squash_reduced_trace_unchanged_witness :
  squash Sample.path ["app.a(0x1)"; tab ++ "/src/app/a.go:3 +0x1d"] =
    (["app.a(0x1)"; tab ++ "/src/app/a.go:3 +0x1d"], false) /\
  reduce Sample.path ["app.a(0x1)"; tab ++ "/src/app/a.go:3 +0x1d"] =
    ["app.a(0x1)"; tab ++ "/src/app/a.go:3 +0x1d"].
Proof.
  apply (squash_reduced_trace_unchanged Sample.path
           ["app.a(0x1)"; tab ++ "/src/app/a.go:3 +0x1d"]).
  repeat constructor.
Defined.

Lemma stale_is_reachable : reachable Sample.path Sample.stale.
Proof.
  unfold Sample.stale. apply reach_Now, reach_Message, reach_initial.
Qed.

Lemma Message_sets_flag_only_witness :
  reachable Sample.path Sample.w0 /\
  failing Sample.w0 = false /\
  Now [VString "first"] Sample.w0 =
    (Panicked (VFailure [VString "first"]), set_failing true Sample.w0) /\
  failing (snd (Now [VString "first"] Sample.w0)) = true /\
  queue (snd (Now [VString "first"] Sample.w0)) = [].
Proof.
  split; [apply reach_initial|]. split; [reflexivity|].
  apply (Message_sets_flag_only Sample.path record_report
           [VString "first"] Sample.w0).
  - apply reach_initial.
  - reflexivity.
Defined.

(** After [Message("a")] was built and not thrown and [Now("b")] was
    called, the state is reachable and holds a note; a failure then raised
    by [panic(fail.Message("c"))] is the first of its unwind, and right
    after it the queue is not empty. *)
Lemma Message_keeps_stale_queue :
  reachable Sample.path Sample.stale /\
  queue Sample.stale = [deferred_note [VString "b"]] /\
  (f <- Message [VString "c"] ;; (panic f : M unit)) Sample.stale =
    (Panicked (VFailure [VString "c"]), Sample.stale) /\
  failing (snd (Message [VString "c"] Sample.stale)) = true /\
  queue (snd (Message [VString "c"] Sample.stale)) =
    [deferred_note [VString "b"]] /\
  queue (snd (Message [VString "c"] Sample.stale)) <> [].
Proof.
  split; [exact stale_is_reachable|].
  repeat split; try reflexivity. vm_compute. discriminate.
Qed.

Lemma Using_resets_only_on_failure_witness :
  Using Sample.path record_report VNil Sample.stale = (Returned tt, Sample.stale) /\
  failing (snd (Using Sample.path record_report VNil Sample.stale)) = true /\
  queue (snd (Using Sample.path record_report VNil Sample.stale)) =
    [deferred_note [VString "b"]].
Proof.
  split.
  - apply (Using_resets_only_on_failure Sample.path record_report Sample.stale).
  - split; reflexivity.
Defined.

(** The stale state, end to end: the first test builds a [Message] and
    does not throw it; the failure of the second test never reaches the
    reporter. *)
Example stale_state_across_tests :
  let after_first :=
    snd (guarded Sample.path record_report
           [Call (f <- Message [VString "a"] ;; ret tt)] Sample.w0) in
  failing after_first = true /\
  guarded Sample.path record_report
    [Call (IfErr (Some "boom") [])] after_first =
  (Returned tt,
   set_queue [deferred_note [VError "boom"]] after_first).
Proof. split; reflexivity. Qed.

(* ================================================================== *)
(** * Further properties of the code *)

(** ** [clean] *)

Module MoreStringFacts.

Lemma HasPrefix_of_substring (s : string) (n : nat) :
  HasPrefix s (substring 0 n s) = true.
Proof.
  revert n. induction s as [|c s IH]; intros n.
  - now destruct n.
  - destruct n as [|n]; [reflexivity|].
    change (substring 0 (S n) (String c s)) with (String c (substring 0 n s)).
    simpl. now rewrite Ascii.eqb_refl, IH.
Qed.

Lemma HasPrefix_refl (s : string) : HasPrefix s s = true.
Proof.
  induction s as [|c s IH]; simpl; [reflexivity|].
  now rewrite Ascii.eqb_refl, IH.
Qed.

(** No occurrence, no last occurrence. *)
Lemma LastIndex_absent (s sep : string) :
  Contains s sep = false -> LastIndex s sep = (-1)%Z.
Proof.
  induction s as [|c s IH]; intros H.
  - simpl in *. rewrite orb_false_r in H. now rewrite H.
  - rewrite StringFacts.LastIndex_cons.
    simpl in H. apply orb_false_iff in H as [Hp Hc].
    rewrite (IH Hc). simpl (0 <=? -1)%Z. cbv iota.
    simpl. simpl in Hp. now rewrite Hp.
Qed.

End MoreStringFacts.

Section CleanFacts.

Import StringFacts MoreStringFacts.

(** What [clean] returns is the beginning of its argument: it only ever
    cuts at the end. *)
Theorem clean_returns_prefix (str : string) :
  HasPrefix str (clean str) = true.
Proof.
  unfold clean, slice_to.
  destruct (HasSuffix str ")" && negb (LastIndex str "(" =? -1)%Z).
  - apply HasPrefix_of_substring.
  - destruct (negb (LastIndex str " +0x" =? -1)%Z).
    + apply HasPrefix_of_substring.
    + apply HasPrefix_refl.
Qed.

(** A line with no [" +0x"] in it, and which does not both end in [")"]
    and hold a ["("], comes back as it is. *)
Theorem clean_leaves_plain_lines (str : string) :
  Contains str " +0x" = false ->
  HasSuffix str ")" = false \/ Contains str "(" = false ->
  clean str = str.
Proof.
  intros Hoff Hargs. unfold clean.
  rewrite (LastIndex_absent str " +0x" Hoff).
  destruct Hargs as [Hs | Hb].
  - now rewrite Hs.
  - rewrite (LastIndex_absent str "(" Hb). now rewrite andb_false_r.
Qed.

End CleanFacts.

Lemma clean_arguments_witness :
  clean ("example.com/app.(*T).load" ++ "(" ++ "0xc000082b60, 0x10" ++ ")") =
  "example.com/app.(*T).load".
Proof.
  apply (clean_arguments "example.com/app.(*T).load" "0xc000082b60, 0x10").
  reflexivity.
Defined.

Lemma clean_offset_witness :
  clean ((tab ++ "/go/src/example.com/app/load.go:17") ++ " +0x" ++ "1d") =
  tab ++ "/go/src/example.com/app/load.go:17".
Proof.
  apply (clean_offset (tab ++ "/go/src/example.com/app/load.go:17") "1d");
    reflexivity.
Defined.

Lemma clean_leaves_plain_lines_witness :
  clean "created by testing.(*T).Run" = "created by testing.(*T).Run".
Proof.
  apply (clean_leaves_plain_lines "created by testing.(*T).Run").
  - reflexivity.
  - left. reflexivity.
Defined.

(** ** One pass of [squash], on any trace *)

Section SquashFacts.

Variable pkgPath : string.

Lemma scan_strippedPath (ls : list string) (st : scan) :
  strippedPath (fold_left (squash_step pkgPath) ls st) =
  strippedPath st || existsb (internal_line pkgPath) ls.
Proof.
  revert st. induction ls as [|l ls IH]; intros st.
  - simpl. now rewrite orb_false_r.
  - simpl. rewrite IH. unfold squash_step, internal_line.
    destruct (Contains l pkgPath), (is_runner l), (found st), (include st);
      simpl; try reflexivity; now rewrite ?orb_true_r, ?orb_false_r.
Qed.

Lemma existsb_internal_false (ls : list string) :
  existsb (internal_line pkgPath) ls = false ->
  Forall (fun l => Contains l pkgPath = false) ls.
Proof.
  induction ls as [|l ls IH]; simpl; intros H; constructor.
  - now apply orb_false_iff in H as [H _].
  - apply IH. now apply orb_false_iff in H as [_ H].
Qed.

(** The second result of [squash] says whether some line contains the
    package path, and when it is false the first result is the input. *)
Theorem squash_reports_package_lines (trace : list string) :
  snd (squash pkgPath trace) = existsb (internal_line pkgPath) trace /\
  (snd (squash pkgPath trace) = false -> fst (squash pkgPath trace) = trace).
Proof.
  unfold squash. rewrite scan_strippedPath. simpl.
  destruct (existsb (internal_line pkgPath) trace); simpl; split; auto.
  discriminate.
Qed.

Lemma squash_false_inv (trace : list string) :
  snd (squash pkgPath trace) = false ->
  Forall (fun l => Contains l pkgPath = false) trace /\
  fst (squash pkgPath trace) = trace.
Proof.
  unfold squash. rewrite scan_strippedPath. simpl.
  destruct (existsb (internal_line pkgPath) trace) eqn:E; simpl;
    [discriminate|].
  intros _. split; [now apply existsb_internal_false | reflexivity].
Qed.

(** What the scan appends is [clean] of lines it read, in their order, and
    never a line of the runner. *)
Lemma scan_appends_subsequence (ls : list string) (st : scan) :
  exists kept : list string,
    subsequence kept ls /\
    Forall (fun l => runner_line pkgPath l = false) kept /\
    squashed (fold_left (squash_step pkgPath) ls st) =
    (squashed st ++ map clean kept)%list.
Proof.
  revert st. induction ls as [|l ls IH]; intros st.
  - exists []. simpl. rewrite app_nil_r. repeat constructor.
  - simpl fold_left.
    destruct (IH (squash_step pkgPath st l)) as (kept & Hsub & Hrun & Heq).
    unfold squash_step, runner_line in *.
    destruct (Contains l pkgPath) eqn:Hc; cbn [include squashed] in Heq.
    + destruct (include st).
      * exists (l :: kept). cbn [squashed] in Heq.
        rewrite <- app_assoc in Heq. repeat split.
        -- now constructor.
        -- constructor; [now rewrite Hc | assumption].
        -- exact Heq.
      * exists kept. repeat split; [now constructor | assumption | exact Heq].
    + destruct (is_runner l) eqn:Hr; cbn [include squashed] in Heq.
      * exists kept. repeat split; [now constructor | assumption | exact Heq].
      * destruct (found st); cbn [include squashed] in Heq.
        -- exists (l :: kept). rewrite <- app_assoc in Heq. repeat split.
           ++ now constructor.
           ++ constructor; [now rewrite Hc, Hr | assumption].
           ++ exact Heq.
        -- destruct (include st).
           ++ exists (l :: kept). cbn [squashed] in Heq.
              rewrite <- app_assoc in Heq. repeat split.
              ** now constructor.
              ** constructor; [now rewrite Hc, Hr | assumption].
              ** exact Heq.
           ++ exists kept.
              repeat split; [now constructor | assumption | exact Heq].
Qed.

(** When some line contains the package path, the result of [squash] is an
    empty entry followed by [clean] of a subsequence of the input, in the
    input's order; no line of the test runner is among them. *)
Theorem squash_result_is_cleaned_subsequence (trace : list string) :
  existsb (internal_line pkgPath) trace = true ->
  exists kept : list string,
    subsequence kept trace /\
    Forall (fun l => runner_line pkgPath l = false) kept /\
    squash pkgPath trace = ("" :: map clean kept, true).
Proof.
  intros H.
  destruct (scan_appends_subsequence trace squash_init)
    as (kept & Hsub & Hrun & Heq).
  exists kept. repeat split; try assumption.
  unfold squash. rewrite scan_strippedPath, H. simpl.
  now rewrite Heq.
Qed.

(** Outside lines read while nothing is found and nothing is included
    leave the scan where it is. *)
Lemma scan_idle (ls : list string) (st : scan) :
  Forall (fun l => Contains l pkgPath = false) ls ->
  found st = false -> include st = false ->
  fold_left (squash_step pkgPath) ls st = st.
Proof.
  revert st. induction ls as [|l ls IH]; intros st Hall Hf Hi; [reflexivity|].
  inversion Hall as [|? ? Hl Hls]; subst. simpl.
  assert (Hstep : squash_step pkgPath st l = st).
  { unfold squash_step. rewrite Hl.
    destruct st as [sq f i sp]. simpl in *. subst.
    now destruct (is_runner l). }
  rewrite Hstep. now apply IH.
Qed.

(** Once lines are being included, every line that is not the runner's is
    kept, package lines too. *)
Lemma scan_including (ls : list string) (sq : list string) :
  Forall (fun l => runner_line pkgPath l = false) ls ->
  fold_left (squash_step pkgPath) ls (mkScan sq true true true) =
  mkScan (sq ++ map clean ls) true true true.
Proof.
  revert sq. induction ls as [|l ls IH]; intros sq Hall.
  - simpl. now rewrite app_nil_r.
  - inversion Hall as [|? ? Hl Hls]; subst. simpl fold_left.
    assert (Hstep : squash_step pkgPath (mkScan sq true true true) l =
                    mkScan (sq ++ [clean l]) true true true).
    { unfold squash_step, runner_line in *.
      destruct (Contains l pkgPath); [reflexivity|].
      simpl in Hl. now rewrite Hl. }
    rewrite Hstep, (IH _ Hls). simpl. now rewrite <- app_assoc.
Qed.

Lemma cleaned_users_outside (users : list string) :
  users <> [] ->
  Forall (fun l => user_line pkgPath l = true) users ->
  Forall (fun l => Contains l pkgPath = false) ("" :: map clean users).
Proof.
  intros Hu Hall. constructor.
  - destruct users as [|u us]; [congruence|].
    inversion Hall as [|? ? Huser _]; subst.
    unfold user_line in Huser. apply andb_true_iff in Huser as [Hc _].
    apply negb_true_iff in Hc.
    destruct pkgPath as [|c p]; [|reflexivity].
    now rewrite StringFacts.Contains_empty in Hc.
  - apply Forall_forall. intros l Hin.
    apply in_map_iff in Hin as (u & <- & Hin).
    apply clean_keeps_outside.
    rewrite Forall_forall in Hall. specialize (Hall u Hin).
    unfold user_line in Hall. apply andb_true_iff in Hall as [Hc _].
    now apply negb_true_iff in Hc.
Qed.

(** A trace as the runtime prints it: lines above the package frames, the
    package frames, N >= 1 user lines, the runner's line, lines below.
    What is above the first package frame and below the runner's line is
    dropped: one pass, and the whole reduction, return the empty entry and
    the N cleaned user lines. *)
Theorem squash_drops_above_and_below
        (above internals users : list string) (runner : string)
        (below : list string) :
  Forall (fun l => Contains l pkgPath = false) above ->
  internals <> [] -> users <> [] ->
  Forall (fun l => internal_line pkgPath l = true) internals ->
  Forall (fun l => user_line pkgPath l = true) users ->
  runner_line pkgPath runner = true ->
  Forall (fun l => Contains l pkgPath = false) below ->
  squash pkgPath (above ++ internals ++ users ++ runner :: below) =
    ("" :: map clean users, true) /\
  reduce pkgPath (above ++ internals ++ users ++ runner :: below) =
    "" :: map clean users.
Proof.
  intros Ha Hi Hu Hall_i Hall_u Hr Hb.
  assert (H1 : squash pkgPath (above ++ internals ++ users ++ runner :: below)
               = ("" :: map clean users, true)).
  { unfold squash. rewrite !fold_left_app.
    rewrite (scan_idle above squash_init Ha eq_refl eq_refl).
    rewrite (scan_internal pkgPath internals squash_init Hall_i Hi eq_refl).
    rewrite (scan_user pkgPath users (mkScan _ true false true) Hall_u Hu eq_refl).
    simpl fold_left. rewrite step_runner by assumption.
    cbn [squashed strippedPath].
    rewrite (scan_idle below (mkScan _ false false true) Hb eq_refl eq_refl).
    reflexivity. }
  split; [exact H1|].
  apply reduce_settled; [exact H1|].
  apply squash_outside. now apply cleaned_users_outside.
Qed.

(** Why [Using] repeats the pass: after the first user line, one pass
    keeps every line up to the runner's, the package's own frames
    included. *)
Theorem squash_keeps_package_lines_below_user_code
        (internals users rest : list string) :
  internals <> [] -> users <> [] ->
  Forall (fun l => internal_line pkgPath l = true) internals ->
  Forall (fun l => user_line pkgPath l = true) users ->
  Forall (fun l => runner_line pkgPath l = false) rest ->
  squash pkgPath (internals ++ users ++ rest) =
    ("" :: map clean (users ++ rest), true).
Proof.
  intros Hi Hu Hall_i Hall_u Hrest. unfold squash.
  rewrite !fold_left_app.
  rewrite (scan_internal pkgPath internals squash_init Hall_i Hi eq_refl).
  rewrite (scan_user pkgPath users (mkScan _ true false true) Hall_u Hu eq_refl).
  cbn [squashed strippedPath squash_init].
  rewrite (scan_including rest _ Hrest). cbn [strippedPath negb squashed].
  now rewrite map_app, <- app_assoc.
Qed.

(** Unless the loop of [Using] ran out of passes (its counter reached 3),
    no line of the reduced trace contains the package path. *)
Theorem reduce_leaves_no_package_line (trace : list string) :
  fst (squash_loop pkgPath 3 0 (fst (squash pkgPath trace))
                   (snd (squash pkgPath trace))) < 3 ->
  Forall (fun l => Contains l pkgPath = false) (reduce pkgPath trace).
Proof.
  intros Hlt.
  destruct (reduce_passes pkgPath trace)
    as (i & Hi & Hloop & Hreduce & Hbefore & Hlast).
  rewrite Hloop in Hlt. specialize (Hlast Hlt).
  rewrite Hreduce.
  destruct i as [|i]; simpl pass_n in *.
  - destruct (squash_false_inv trace Hlast) as [Hall Heq]. now rewrite Heq.
  - destruct (squash_false_inv _ Hlast) as [Hall Heq]. now rewrite Heq.
Qed.

End SquashFacts.

(** ** The two files' trace filters *)

Section TwoFilters.

Variable pkgPath : string.

Lemma scans_agree (ls : list string) (st : scan) (st' : Part000.scan) :
  squashed st = map clean (Part000.squashed st') ->
  found st = Part000.found st' ->
  include st = Part000.include st' ->
  squashed (fold_left (squash_step pkgPath) ls st) =
  map clean (Part000.squashed (fold_left (Part000.scan_step pkgPath) ls st')).
Proof.
  revert st st'. induction ls as [|l ls IH]; intros st st' Hs Hf Hi.
  - exact Hs.
  - simpl. destruct st as [sq f i sp], st' as [sq' f' i'].
    cbn [squashed found include Part000.squashed Part000.found
         Part000.include] in Hs, Hf, Hi.
    subst sq f i.
    apply IH;
      unfold squash_step, Part000.scan_step, is_runner;
      cbn [squashed found include strippedPath Part000.squashed Part000.found
           Part000.include];
      destruct (Contains l pkgPath),
               (HasPrefix (TrimSpace l) "testing.tRunner"), f', i';
      cbn [squashed found include strippedPath Part000.squashed Part000.found
           Part000.include];
      rewrite ?map_app; reflexivity.
Qed.

(** The pass of [fail.go] selects the lines the loop in the other file's
    [Using] selects, and passes each through [clean]: whenever a line
    contains the package path, the result of [squash] is the other file's
    list with [clean] applied to every entry. *)
Theorem squash_is_cleaned_Part000_scan (trace : list string) :
  existsb (internal_line pkgPath) trace = true ->
  squash pkgPath trace =
  (map clean
     (Part000.squashed
        (fold_left (Part000.scan_step pkgPath) trace
                   (Part000.mkScan [""] false false))),
   true).
Proof.
  intros H. unfold squash. rewrite scan_strippedPath, H. simpl.
  f_equal. now apply scans_agree.
Qed.

End TwoFilters.

Lemma squash_is_cleaned_Part000_scan_witness :
  squash Sample.path Sample.raw_lines =
  (map clean
     (Part000.squashed
        (fold_left (Part000.scan_step Sample.path) Sample.raw_lines
                   (Part000.mkScan [""] false false))),
   true).
Proof.
  apply (squash_is_cleaned_Part000_scan Sample.path Sample.raw_lines).
  reflexivity.
Defined.

Lemma squash_result_is_cleaned_subsequence_witness :
  exists kept : list string,
    subsequence kept Sample.raw_lines /\
    Forall (fun l => runner_line Sample.path l = false) kept /\
    squash Sample.path Sample.raw_lines = ("" :: map clean kept, true).
Proof.
  apply (squash_result_is_cleaned_subsequence Sample.path Sample.raw_lines).
  reflexivity.
Defined.

Lemma squash_drops_above_and_below_witness :
  squash Sample.path
    (Sample.above_lines ++ Sample.internal_lines ++ Sample.user_lines
       ++ Sample.boundary :: Sample.below_lines) =
    ("" :: map clean Sample.user_lines, true) /\
  reduce Sample.path
    (Sample.above_lines ++ Sample.internal_lines ++ Sample.user_lines
       ++ Sample.boundary :: Sample.below_lines) =
    "" :: map clean Sample.user_lines.
Proof.
  apply (squash_drops_above_and_below Sample.path Sample.above_lines
           Sample.internal_lines Sample.user_lines Sample.boundary
           Sample.below_lines).
  - repeat constructor.
  - discriminate.
  - discriminate.
  - repeat constructor.
  - repeat constructor.
  - reflexivity.
  - repeat constructor.
Defined.

Lemma squash_keeps_package_lines_below_user_code_witness :
  squash Sample.path
    (Sample.internal_lines ++ Sample.user_lines
       ++ (Sample.helper_lines ++ Sample.user_lines)) =
  ("" :: map clean (Sample.user_lines
                      ++ (Sample.helper_lines ++ Sample.user_lines)), true).
Proof.
  apply (squash_keeps_package_lines_below_user_code Sample.path
           Sample.internal_lines Sample.user_lines
           (Sample.helper_lines ++ Sample.user_lines)).
  - discriminate.
  - discriminate.
  - repeat constructor.
  - repeat constructor.
  - repeat constructor.
Defined.

Lemma reduce_leaves_no_package_line_witness :
  Forall (fun l => Contains l Sample.path = false)
         (reduce Sample.path Sample.raw_lines).
Proof.
  apply (reduce_leaves_no_package_line Sample.path Sample.raw_lines).
  vm_compute. repeat constructor.
Defined.

(** ** Any test body under the guard *)

Section Guard.

Variable pkgPath : string.
Variable failer : list value -> M unit.

(** The call deferred first runs last. *)
Lemma unwind_last (pending : list deferred) (d : deferred)
      (o : outcome unit) (w : World) :
  unwind (pending ++ [d]) o w =
  let (o', w') := unwind pending o w in run_deferred d o' w'.
Proof.
  revert o w. induction pending as [|x pending IH]; intros o w.
  - simpl. now destruct (run_deferred d o w).
  - simpl. destruct (run_deferred x o w) as [o1 w1]. apply IH.
Qed.

Lemma exec_last (body : list stmt) (pending : list deferred) (d : deferred)
      (w : World) :
  exec body (pending ++ [d]) w =
  let (o', w') := exec body pending w in run_deferred d o' w'.
Proof.
  revert pending w. induction body as [|s body IH]; intros pending w.
  - simpl. apply unwind_last.
  - destruct s as [c|d0]; simpl.
    + destruct (c w) as [[a|v] w1]; [apply IH | apply unwind_last].
    + apply (IH (d0 :: pending)).
Qed.

(** A guarded test is its body, run as a function of its own, followed by
    [Using] on what [recover()] then returns. *)
Lemma guarded_is_body_then_Using (body : list stmt) (w : World) :
  guarded pkgPath failer body w =
  let (o, w') := func body w in Using pkgPath failer (recovered o) w'.
Proof.
  unfold guarded, func. cbn [exec].
  pose proof (exec_last body [] (DeferRecover (Using pkgPath failer)) w) as E.
  cbn [app] in E. rewrite E.
  destruct (exec body [] w) as [[a|v] w']; reflexivity.
Qed.

(** A test whose body returns is left alone by the guard: same result,
    same world, the reporter not called. *)
Theorem guarded_success_is_silent (body : list stmt) (w w' : World) :
  func body w = (Returned tt, w') ->
  guarded pkgPath failer body w = (Returned tt, w').
Proof.
  intros H. rewrite guarded_is_body_then_Using, H. reflexivity.
Qed.

(** A panic of the body with a value that is not a failure leaves the
    guarded test as it left the body: same value, same world. *)
Theorem guarded_foreign_panic_passes (body : list stmt) (v : value)
        (w w' : World) :
  func body w = (Panicked v, w') ->
  is_nil v = false -> is_failure v = false ->
  guarded pkgPath failer body w = (Panicked v, w').
Proof.
  intros H Hn Hf. rewrite guarded_is_body_then_Using, H.
  now apply Using_foreign.
Qed.

(** Whatever the body is, if it leaves panicking with a failure, the
    guarded test is one call of the reporter on the failure's values, the
    trace and the notes queued by then, in the package state reset. *)
Theorem guarded_failure_is_reported (body : list stmt) (f : list value)
        (w w' : World) :
  func body w = (Panicked (VFailure f), w') ->
  guarded pkgPath failer body w =
  failer (f ++ [trace_text pkgPath w'] ++ queue w') (after_catch w').
Proof.
  intros H. rewrite guarded_is_body_then_Using, H.
  apply Using_failure.
Qed.

(** [IfErr] on a nil error does nothing: the test goes on with its next
    statement in the same world. *)
Theorem IfErr_nil_continues (args : list value) (rest : list stmt)
        (w : World) :
  IfErr None args w = (Returned tt, w) /\
  guarded pkgPath failer (Call (IfErr None args) :: rest) w =
  guarded pkgPath failer rest w.
Proof. split; reflexivity. Qed.

(** A test body that panics with any value, and a deferred cleanup that
    then raises while [failing] is false: the cleanup's failure replaces
    the panic, and the reporter receives the cleanup's values; the value
    of the first panic is not reported and not thrown again. *)
Theorem raising_cleanup_replaces_panic (v : value) (args : list value)
        (w : World) :
  failing w = false ->
  guarded pkgPath failer [cleanup_raising args; Call (panic v)] w =
  failer (args ++ [trace_text pkgPath w] ++ queue w) (after_catch w).
Proof.
  intros H. rewrite guarded_is_body_then_Using.
  unfold func. cbn [exec cleanup_raising panic unwind run_deferred].
  rewrite (Now_not_failing args w H). cbn [recovered].
  rewrite Using_failure. reflexivity.
Qed.

End Guard.

Section GuardMore.

Variable pkgPath : string.
Variable failer : list value -> M unit.

Lemma func_with_first_defer (d : deferred) (body : list stmt) (w : World) :
  func (DeferCall d :: body) w =
  let (o, w') := func body w in run_deferred d o w'.
Proof.
  unfold func. cbn [exec].
  pose proof (exec_last body [] d w) as E. cbn [app] in E. exact E.
Qed.

(** With the recording reporter: a body that leaves with a failure makes
    the guarded test return normally, after exactly one capture of the
    stack and one report, with [failing] false and the queue empty again. *)
Theorem guarded_reports_once_and_resets (body : list stmt) (f : list value)
        (w w' : World) :
  func body w = (Panicked (VFailure f), w') ->
  guarded pkgPath record_report body w =
  (Returned tt,
   mkWorld false [] (stack w')
           (events w' ++ [StackCaptured;
                          Reported (f ++ [trace_text pkgPath w'] ++ queue w')])).
Proof.
  intros H. rewrite guarded_is_body_then_Using, H. cbn [recovered].
  rewrite Using_failure. unfold record_report, log_event, after_catch.
  cbn [failing queue stack events]. now rewrite <- app_assoc.
Qed.

(** [defer fail.IfDeferred(file.Close, ...)] after a body that returned:
    when [Close] returns an error (and [failing] is false), the error
    becomes the failure of the test, first in the report. *)
Theorem IfDeferred_error_fails_the_test (fn : M error) (args : list value)
        (body : list stmt) (e : string) (w w1 w2 : World) :
  func body w = (Returned tt, w1) ->
  fn w1 = (Returned (Some e), w2) ->
  failing w2 = false ->
  guarded pkgPath failer (DeferCall (Defer (IfDeferred fn args)) :: body) w =
  failer (VError e :: args ++ [trace_text pkgPath w2] ++ queue w2)
         (after_catch w2).
Proof.
  intros Hbody Hfn Hflag.
  rewrite guarded_is_body_then_Using, func_with_first_defer, Hbody.
  unfold run_deferred, IfDeferred, bind. rewrite Hfn.
  rewrite (Now_not_failing (VError e :: args) w2 Hflag). cbn [recovered].
  rewrite Using_failure. reflexivity.
Qed.

(** The same deferred call while a failure of the body unwinds: the body's
    failure stays the one reported, and the error of [Close], with its
    extra values, is the last note of the report. *)
Theorem IfDeferred_error_during_unwind_is_a_note
        (fn : M error) (args : list value) (body : list stmt)
        (f : list value) (e : string) (w w1 w2 : World) :
  func body w = (Panicked (VFailure f), w1) ->
  fn w1 = (Returned (Some e), w2) ->
  failing w2 = true ->
  guarded pkgPath failer (DeferCall (Defer (IfDeferred fn args)) :: body) w =
  failer (f ++ [trace_text pkgPath w2]
            ++ queue w2 ++ [deferred_note (VError e :: args)])
         (after_catch w2).
Proof.
  intros Hbody Hfn Hflag.
  rewrite guarded_is_body_then_Using, func_with_first_defer, Hbody.
  unfold run_deferred, IfDeferred, bind. rewrite Hfn.
  rewrite (Now_failing (VError e :: args) w2 Hflag). cbn [recovered].
  rewrite Using_failure. reflexivity.
Qed.

End GuardMore.

(** ** Invariants of the package state *)

Section Invariants.

Variable pkgPath : string.

Lemma Now_queue (args : list value) (w : World) :
  queue (snd (Now args w)) = queue w \/
  queue (snd (Now args w)) = (queue w ++ [deferred_note args])%list.
Proof.
  destruct (failing w) eqn:H.
  - right. now rewrite (Now_failing args w H).
  - left. now rewrite (Now_not_failing args w H).
Qed.

Lemma notes_only_Now (args : list value) (w : World) :
  notes_only w -> notes_only (snd (Now args w)).
Proof.
  unfold notes_only. intros Hw.
  destruct (Now_queue args w) as [-> | ->]; [exact Hw|].
  apply Forall_app. split; [exact Hw|].
  constructor; [now exists args | constructor].
Qed.

Lemma notes_only_external {A} (c : M A) (w : World) :
  external c -> notes_only w -> notes_only (snd (c w)).
Proof.
  intros Hc Hw. destruct (Hc w) as [_ Hq]. unfold notes_only. now rewrite Hq.
Qed.

(** In every state the package reaches, the queue holds nothing but notes
    written by [enqueue], each one "\nFailure on defer: ...\n". *)
Theorem queue_holds_only_notes (w : World) :
  reachable pkgPath w -> notes_only w.
Proof.
  induction 1 as [st | c w Hc _ IH | args w _ IH | args w _ IH
                  | err args w _ IH | fn args w Hfn _ IH | c args w _ IH
                  | failer r w Hfailer _ IH].
  - constructor.
  - now apply notes_only_external.
  - exact IH.
  - now apply notes_only_Now.
  - destruct err as [e|]; [now apply notes_only_Now | exact IH].
  - unfold IfDeferred, bind.
    pose proof (notes_only_external fn w Hfn IH) as Hw1.
    destruct (fn w) as [[[e|]|v] w1]; simpl in Hw1; try exact Hw1.
    now apply notes_only_Now.
  - destruct c; [now apply notes_only_Now | exact IH].
  - destruct r as [|m|s|n|f]; try exact IH.
    rewrite Using_failure.
    apply (notes_only_external (failer _) (after_catch w) (Hfailer _)).
    constructor.
Qed.

(** In every state the package reaches, a false [failing] flag means an
    empty queue: notes never outlive the report of their failure. *)
Theorem idle_package_has_empty_queue (w : World) :
  reachable pkgPath w -> failing w = false -> queue w = [].
Proof.
  intros Hr Hf. exact (reachable_consistent pkgPath w Hr Hf).
Qed.

End Invariants.

(** ** The file with [IfNot] under its own guard *)

Section OtherFile.

Variable pkgPath : string.
Variable failer : list value -> M unit.

(** [IfErr] of this file under this file's guard: a non-nil error is first
    in the one report, and nothing but the trace follows the extra values;
    a nil error lets the test go on. *)
Theorem Part000_IfErr_reports_error_first (e : string) (args : list value)
        (rest : list stmt) (w : World) :
  Part000.guarded pkgPath failer
    (Call (Part000.IfErr (Some e) args) :: rest) w =
    failer (VError e :: args ++ [Part000.trace_text pkgPath w])
           (log_event StackCaptured w) /\
  Part000.guarded pkgPath failer (Call (Part000.IfErr None args) :: rest) w =
    Part000.guarded pkgPath failer rest w.
Proof.
  split; [|reflexivity].
  unfold Part000.guarded, func.
  cbn [exec Part000.IfErr panic unwind run_deferred].
  unfold Part000.Using, Part000.trace_text, bind, debug_Stack.
  cbn [stack log_event]. now destruct (failer _ _).
Qed.

(** In this file a cleanup that fails while a failure unwinds throws a
    second failure, which replaces the first: the report is the cleanup's
    error and values, and the error that failed the test is not in it. *)
Theorem Part000_deferred_error_replaces_failure
        (fn : M error) (e1 e2 : string) (args1 args2 : list value)
        (w w2 : World) :
  fn w = (Returned (Some e2), w2) ->
  Part000.guarded pkgPath failer
    [DeferCall (Defer (Part000.IfDeferred fn args2));
     Call (Part000.IfErr (Some e1) args1)] w =
  failer (VError e2 :: args2 ++ [Part000.trace_text pkgPath w2])
         (log_event StackCaptured w2).
Proof.
  intros Hfn. unfold Part000.guarded, func.
  cbn [exec Part000.IfErr panic unwind run_deferred].
  unfold Part000.IfDeferred, bind. rewrite Hfn. cbn [panic].
  unfold Part000.Using, Part000.trace_text, bind, debug_Stack.
  cbn [stack log_event app]. now destruct (failer _ _).
Qed.

End OtherFile.

(** ** The further properties on concrete runs *)

Lemma guarded_success_is_silent_witness :
  guarded Sample.path record_report
    [Call (IfErr None [VString "open failed"]);
     Call (If false [VString "x"; VString " != "; VString "y"])] Sample.w0 =
  (Returned tt, Sample.w0).
Proof.
  apply (guarded_success_is_silent Sample.path record_report
           [Call (IfErr None [VString "open failed"]);
            Call (If false [VString "x"; VString " != "; VString "y"])]
           Sample.w0 Sample.w0).
  reflexivity.
Defined.

Lemma guarded_foreign_panic_passes_witness :
  guarded Sample.path record_report
    [Call (panic (VError "runtime error: index out of range"))] Sample.w0 =
  (Panicked (VError "runtime error: index out of range"), Sample.w0).
Proof.
  apply (guarded_foreign_panic_passes Sample.path record_report
           [Call (panic (VError "runtime error: index out of range"))]
           (VError "runtime error: index out of range") Sample.w0 Sample.w0);
    reflexivity.
Defined.

Lemma guarded_failure_is_reported_witness :
  guarded Sample.path record_report
    [cleanup_raising [VString "second"]; Call (Now [VString "first"])]
    Sample.w0 =
  record_report
    ([VString "first"]
       ++ [trace_text Sample.path
             (snd (func [cleanup_raising [VString "second"];
                         Call (Now [VString "first"])] Sample.w0))]
       ++ queue (snd (func [cleanup_raising [VString "second"];
                            Call (Now [VString "first"])] Sample.w0)))
    (after_catch
       (snd (func [cleanup_raising [VString "second"];
                   Call (Now [VString "first"])] Sample.w0))).
Proof.
  apply (guarded_failure_is_reported Sample.path record_report
           [cleanup_raising [VString "second"]; Call (Now [VString "first"])]
           [VString "first"] Sample.w0).
  reflexivity.
Defined.

Lemma guarded_reports_once_and_resets_witness :
  guarded Sample.path record_report [Call (Now [VString "first"])] Sample.w0 =
  (Returned tt,
   mkWorld false [] (stack Sample.w0)
           (events Sample.w0
              ++ [StackCaptured;
                  Reported ([VString "first"]
                              ++ [trace_text Sample.path
                                    (set_failing true Sample.w0)]
                              ++ queue (set_failing true Sample.w0))])).
Proof.
  apply (guarded_reports_once_and_resets Sample.path
           [Call (Now [VString "first"])] [VString "first"]
           Sample.w0 (set_failing true Sample.w0)).
  reflexivity.
Defined.

Lemma raising_cleanup_replaces_panic_witness :
  failing Sample.w0 = false /\
  guarded Sample.path record_report
    [cleanup_raising [VError "file already closed"];
     Call (panic (VError "runtime error: index out of range"))] Sample.w0 =
  record_report
    ([VError "file already closed"] ++ [trace_text Sample.path Sample.w0]
       ++ queue Sample.w0)
    (after_catch Sample.w0).
Proof.
  split; [reflexivity|].
  apply (raising_cleanup_replaces_panic Sample.path record_report
           (VError "runtime error: index out of range")
           [VError "file already closed"] Sample.w0).
  reflexivity.
Defined.

Lemma IfDeferred_error_fails_the_test_witness :
  guarded Sample.path record_report
    [DeferCall (Defer (IfDeferred Sample.close_fails
                         [VString "closing myfile failed"]));
     Call (IfErr None [])] Sample.w0 =
  record_report
    (VError "file already closed" :: [VString "closing myfile failed"]
       ++ [trace_text Sample.path Sample.w0] ++ queue Sample.w0)
    (after_catch Sample.w0).
Proof.
  apply (IfDeferred_error_fails_the_test Sample.path record_report
           Sample.close_fails [VString "closing myfile failed"]
           [Call (IfErr None [])] "file already closed"
           Sample.w0 Sample.w0 Sample.w0);
    reflexivity.
Defined.

Lemma IfDeferred_error_during_unwind_is_a_note_witness :
  guarded Sample.path record_report
    [DeferCall (Defer (IfDeferred Sample.close_fails
                         [VString "closing myfile failed"]));
     Call (IfErr (Some "boom") [])] Sample.w0 =
  record_report
    ([VError "boom"] ++ [trace_text Sample.path Sample.unwinding]
       ++ queue Sample.unwinding
       ++ [deferred_note [VError "file already closed";
                          VString "closing myfile failed"]])
    (after_catch Sample.unwinding).
Proof.
  apply (IfDeferred_error_during_unwind_is_a_note Sample.path record_report
           Sample.close_fails [VString "closing myfile failed"]
           [Call (IfErr (Some "boom") [])] [VError "boom"]
           "file already closed"
           Sample.w0 Sample.unwinding Sample.unwinding);
    reflexivity.
Defined.

(** The documented use of the package, evaluated: the read fails, the
    deferred [Close] fails too, and the report is the read error, the
    trace, then the note of the close error. *)
Example scenario_read_and_close_fail :
  events (snd (guarded Sample.path record_report
                 [Call (IfErr None []);
                  DeferCall (Defer (IfDeferred Sample.close_fails
                                      [VString "failed to close myfile"]));
                  Call (IfErr (Some "unexpected EOF")
                              [VString "failed to read contents of myfile"])]
                 (initial ""))) =
  [ StackCaptured;
    Reported
      [ VError "unexpected EOF";
        VString "failed to read contents of myfile";
        VString "";
        VString (nl ++ "Failure on defer: file already closed failed to close myfile" ++ nl) ] ].
Proof. vm_compute. reflexivity. Qed.

Lemma record_report_is_external (args : list value) :
  external (record_report args).
Proof. intros w. split; reflexivity. Qed.

Lemma queue_holds_only_notes_witness : notes_only Sample.stale.
Proof.
  apply (queue_holds_only_notes Sample.path Sample.stale).
  exact stale_is_reachable.
Defined.

Lemma idle_package_has_empty_queue_witness :
  queue (snd (Using Sample.path record_report (VFailure [VString "first"])
                (snd (Now [VString "second"]
                        (snd (Now [VString "first"] Sample.w0)))))) = [].
Proof.
  apply (idle_package_has_empty_queue Sample.path).
  - apply reach_Using.
    + exact record_report_is_external.
    + apply reach_Now, reach_Now, reach_initial.
  - reflexivity.
Defined.

Lemma stale_flag_swallows_failure_witness :
  guarded Sample.path record_report [Call (Now [VString "late"])] Sample.stale =
  (Returned tt,
   set_queue (queue Sample.stale ++ [deferred_note [VString "late"]])
             Sample.stale).
Proof.
  apply (stale_flag_swallows_failure Sample.path record_report
           [VString "late"] Sample.stale).
  reflexivity.
Defined.

Lemma Part000_deferred_error_replaces_failure_witness :
  Part000.guarded Sample.path record_report
    [DeferCall (Defer (Part000.IfDeferred Sample.close_fails
                         [VString "closing myfile failed"]));
     Call (Part000.IfErr (Some "boom") [])] Sample.w0 =
  record_report
    (VError "file already closed" :: [VString "closing myfile failed"]
       ++ [Part000.trace_text Sample.path Sample.w0])
    (log_event StackCaptured Sample.w0).
Proof.
  apply (Part000_deferred_error_replaces_failure Sample.path record_report
           Sample.close_fails "boom" "file already closed" []
           [VString "closing myfile failed"] Sample.w0 Sample.w0).
  reflexivity.
Defined.

Lemma squash_reports_package_lines_witness :
  snd (squash Sample.path Sample.user_lines) = false /\
  fst (squash Sample.path Sample.user_lines) = Sample.user_lines.
Proof.
  split; [reflexivity|].
  apply (squash_reports_package_lines Sample.path Sample.user_lines).
  reflexivity.
Defined.
